(** * Verification of crux's schema, rule-set and entity verifiers

    A shallow embedding of [verify_data.go]: [verifyRuleSchema],
    [verifyRuleSet], [doReferentialChecks], [verifyEntity] and their helper
    functions, followed by the properties the specification states about
    them. *)

From Stdlib Require Import Ascii String.
From stdpp Require Import gmap strings list fin_maps.

Open Scope string_scope.

(** ** Go values *)

(** A value of Go's [any]: its dynamic type and its payload. A [float64] is
    kept as its 64-bit pattern; the verifiers only ever look at the dynamic
    type. [AnyOther] stands for a value of any other dynamic type. *)
Inductive GoAny : Type :=
| AnyNil
| AnyBool (b : bool)
| AnyInt (n : Z)
| AnyFloat64 (bits : Z)
| AnyString (s : string)
| AnyOther.

(** What the Go functions return: [(bool, error)], with [None] for a [nil]
    error. An error is the text [fmt.Errorf] builds; every [%v] of the file
    is filled with a string. *)
Definition Result : Type := bool * option string.

(** [m[k]] on a [map[string]bool]: the zero value when the key is absent. A
    nil map reads, ranges and measures like an empty one, and the only
    comparison of maps in the file has a non-empty map on one side, so a
    [gmap] stands for both. *)
Definition goIndex (m : gmap string bool) (k : string) : bool :=
  default false (m !! k).

(** [reflect.DeepEqual] on two values of type [map[string]bool]: same keys
    with the same values. *)
Definition DeepEqual (m1 m2 : gmap string bool) : bool :=
  bool_decide (m1 = m2).

(** Go leaves the order in which [range] walks a map unspecified, and it
    differs from run to run. A run is described by the order in which it
    enumerates each map. *)
Record RangeOrder : Type := {
  rangeOf : ∀ V : Type, gmap string V → list (string * V);
  rangeOf_perm : ∀ (V : Type) (m : gmap string V), rangeOf V m ≡ₚ map_to_list m
}.
Arguments rangeOf _ {V} _.

(** A [for ... range] loop whose body either returns from the function or
    goes on to the next element: what the first element that returns,
    returns. *)
Fixpoint firstReturn {A R : Type} (body : A → option R) (l : list A)
    : option R :=
  match l with
  | [] => None
  | x :: rest =>
      match body x with
      | Some r => Some r
      | None => firstReturn body rest
      end
  end.

(** ** Data model

    The structs are declared in another file of the package; the fields and
    their types are the ones [verify_data.go] reads: [vals] is what
    [getStepAttrVals] returns, the [properties] of a rule what
    [areNextStepAndDoneInProps] takes, [attrVal] what [verifyType] takes,
    and the task and property lists are ranged over as slices of strings. *)

Module AttrSchema.
Record t : Type := mk {
  name : string;
  valType : string;
  vals : gmap string bool
}.
End AttrSchema.

Module ActionSchema.
Record t : Type := mk {
  tasks : list string;
  properties : list string
}.
End ActionSchema.

Module RuleSchema.
Record t : Type := mk {
  class : string;
  patternSchema : list AttrSchema.t;
  actionSchema : ActionSchema.t
}.
End RuleSchema.

Module Term.
Record t : Type := mk {
  attrName : string;
  op : string;
  attrVal : GoAny
}.
End Term.

Module RuleActions.
Record t : Type := mk {
  tasks : list string;
  properties : gmap string string;
  thenCall : string;
  elseCall : string;
  willReturn : bool;
  willExit : bool
}.
End RuleActions.

Module Rule.
Record t : Type := mk {
  rulePattern : list Term.t;
  ruleActions : RuleActions.t
}.
End Rule.

Module RuleSet.
Record t : Type := mk {
  class : string;
  setName : string;
  rules : list Rule.t
}.
End RuleSet.

(** Modelled from the spec: the declaration of [Entity] is in another file
    of the package; its [attrs] is a "map from attribute name to a typed
    value", which [verifyEntity] passes on to [convertEntityAttrVal]. *)
Module Entity.
Record t : Type := mk {
  class : string;
  attrs : gmap string GoAny
}.
End Entity.

Abbreviation AttrSchema := AttrSchema.t.
Abbreviation ActionSchema := ActionSchema.t.
Abbreviation RuleSchema := RuleSchema.t.
Abbreviation Term := Term.t.
Abbreviation RuleActions := RuleActions.t.
Abbreviation Rule := Rule.t.
Abbreviation RuleSet := RuleSet.t.
Abbreviation Entity := Entity.t.

(** ** Constants of [verify_data.go] *)

Definition step : string := "step".
Definition stepFailed : string := "stepfailed".
Definition start : string := "START".
Definition nextStep : string := "nextstep".
Definition done : string := "done".

(** [regexp.MustCompile(cruxIDRegExp).MatchString], for
    [cruxIDRegExp = `^[a-z][a-z0-9_]*$`]: without flags [^] and [$] match
    only at the two ends of the text, so the whole string is one lower-case
    letter followed by lower-case letters, digits and underscores. *)
Definition isLower (c : ascii) : bool :=
  (97 <=? nat_of_ascii c)%nat && (nat_of_ascii c <=? 122)%nat.

Definition isDigit (c : ascii) : bool :=
  (48 <=? nat_of_ascii c)%nat && (nat_of_ascii c <=? 57)%nat.

Definition isCruxIDTail (c : ascii) : bool :=
  isLower c || isDigit c || Ascii.eqb c "_".

Fixpoint allChars (p : ascii → bool) (s : string) : bool :=
  match s with
  | EmptyString => true
  | String c s' => p c && allChars p s'
  end.

Definition MatchString (s : string) : bool :=
  match s with
  | EmptyString => false
  | String c s' => isLower c && allChars isCruxIDTail s'
  end.

(** ** Declarations the file uses from elsewhere in its package

    The value-type and operator constants, [trueStr], and the layout
    [time.Parse] is called with are declared in another file of the package.
    The verifiers are embedded over any choice of them. [timeParse s] says
    whether [time.Parse(timeLayout, s)] returns a nil error. *)
Class Decls : Type := {
  typeBool : string;
  typeInt : string;
  typeFloat : string;
  typeStr : string;
  typeEnum : string;
  typeTS : string;
  opEQ : string;
  opNE : string;
  opLT : string;
  opLE : string;
  opGT : string;
  opGE : string;
  trueStr : string;
  timeParse : string → bool
}.

(** ** The verifiers *)

Section Verifiers.
Context `{D : Decls}.

(** [validTypes] and [validOps] are map literals; a missing key reads as
    [false]. *)
Definition validTypes : gmap string bool :=
  list_to_map [(typeBool, true); (typeInt, true); (typeFloat, true);
               (typeStr, true); (typeEnum, true); (typeTS, true)].

Definition validOps : gmap string bool :=
  list_to_map [(opEQ, true); (opNE, true); (opLT, true);
               (opLE, true); (opGT, true); (opGE, true)].

(** *** Schema verification *)

(** The body of the inner loop of [verifyPatternSchema],
    [for val := range attrSchema.vals]. *)
Definition verifyEnumVal (entry : string * bool) : option string :=
  let val := entry.1 in
  if negb (MatchString val) && negb (String.eqb val start)
  then Some ("enum value " ++ val ++ " is not a valid CruxID")
  else None.

(** The loop of [verifyPatternSchema] over [rs.patternSchema], threading
    [stepFound] and [stepFailedFound]: an error as soon as an attribute
    fails, and otherwise the two flags after the last attribute. *)
Fixpoint patternSchemaLoop (ro : RangeOrder) (class : string) (isWF : bool)
    (attrs : list AttrSchema) (stepFound stepFailedFound : bool)
    : string + (bool * bool) :=
  match attrs with
  | [] => inr (stepFound, stepFailedFound)
  | attrSchema :: rest =>
      let name := AttrSchema.name attrSchema in
      let valType := AttrSchema.valType attrSchema in
      let vals := AttrSchema.vals attrSchema in
      if negb (MatchString name)
      then inl ("attribute name " ++ name ++ " is not a valid CruxID")
      else if negb (goIndex validTypes valType)
      then inl (valType ++ " is not a valid value-type")
      else if String.eqb valType typeEnum && (size vals =? 0)%nat
      then inl ("no valid values for enum " ++ name)
      else
        match firstReturn verifyEnumVal (rangeOf ro vals) with
        | Some err => inl err
        | None =>
            let stepFound :=
              if String.eqb name step && String.eqb valType typeEnum
              then true else stepFound in
            if isWF && String.eqb name step && negb (goIndex vals start)
            then inl ("workflow schema for " ++ class ++ " doesn't allow step=START")
            else
              let stepFailedFound :=
                if String.eqb name stepFailed && String.eqb valType typeBool
                then true else stepFailedFound in
              patternSchemaLoop ro class isWF rest stepFound stepFailedFound
        end
  end.

Definition verifyPatternSchema (ro : RangeOrder) (rs : RuleSchema) (isWF : bool)
    : Result :=
  if (length (RuleSchema.patternSchema rs) =? 0)%nat
  then (false, Some ("pattern-schema for " ++ RuleSchema.class rs ++ " is empty"))
  else
    match patternSchemaLoop ro (RuleSchema.class rs) isWF
            (RuleSchema.patternSchema rs) false false with
    | inl err => (false, Some err)
    | inr (stepFound, stepFailedFound) =>
        if isWF && (negb stepFound || negb stepFailedFound)
        then (false, Some ("necessary workflow attributes absent in schema for class "
                           ++ RuleSchema.class rs))
        else (true, None)
    end.

Definition getTasksMapForWF (tasks : list string) : gmap string bool :=
  <[start := true]> (foldl (λ tm t, <[t := true]> tm) ∅ tasks).

(** [getStepAttrVals]: the [vals] of the first attribute named [step]; the
    nil map when there is none. *)
Fixpoint getStepAttrValsIn (attrs : list AttrSchema) : gmap string bool :=
  match attrs with
  | [] => ∅
  | ps :: rest =>
      if String.eqb (AttrSchema.name ps) step
      then AttrSchema.vals ps
      else getStepAttrValsIn rest
  end.

Definition getStepAttrVals (rs : RuleSchema) : gmap string bool :=
  getStepAttrValsIn (RuleSchema.patternSchema rs).

(** The body of [for _, task := range rs.actionSchema.tasks]. *)
Definition verifyTaskName (task : string) : option string :=
  if negb (MatchString task)
  then Some ("task " ++ task ++ " is not a valid CruxID")
  else None.

(** [for _, propName := range rs.actionSchema.properties], threading
    [nextStepFound] and [doneFound]. *)
Fixpoint propertiesLoop (props : list string) (nextStepFound doneFound : bool)
    : string + (bool * bool) :=
  match props with
  | [] => inr (nextStepFound, doneFound)
  | propName :: rest =>
      if negb (MatchString propName)
      then inl ("property name " ++ propName ++ " is not a valid CruxID")
      else if String.eqb propName nextStep
      then propertiesLoop rest true doneFound
      else if String.eqb propName done
      then propertiesLoop rest nextStepFound true
      else propertiesLoop rest nextStepFound doneFound
  end.

Definition verifyActionSchema (rs : RuleSchema) (isWF : bool) : Result :=
  let class := RuleSchema.class rs in
  let tasks := ActionSchema.tasks (RuleSchema.actionSchema rs) in
  let properties := ActionSchema.properties (RuleSchema.actionSchema rs) in
  if (length tasks =? 0)%nat && (length properties =? 0)%nat
  then (false, Some ("both tasks and properties are empty in schema for class " ++ class))
  else
    match firstReturn verifyTaskName tasks with
    | Some err => (false, Some err)
    | None =>
        if isWF && negb (length properties =? 2)%nat
        then (false, Some ("action-schema for " ++ class
                           ++ " does not contain exactly two properties"))
        else
          match propertiesLoop properties false false with
          | inl err => (false, Some err)
          | inr (nextStepFound, doneFound) =>
              if isWF && (negb nextStepFound || negb doneFound)
              then (false, Some ("action-schema for " ++ class
                      ++ " does not contain both the properties 'nextstep' and 'done'"))
              else if isWF && negb (DeepEqual (getTasksMapForWF tasks) (getStepAttrVals rs))
              then (false, Some ("action-schema tasks for " ++ class
                      ++ " are not the same as valid values for 'step' in pattern-schema"))
              else (true, None)
          end
    end.

Definition verifyRuleSchema (ro : RangeOrder) (rs : RuleSchema) (isWF : bool)
    : Result :=
  if (String.length (RuleSchema.class rs) =? 0)%nat
  then (false, Some "schema class is empty string")
  else
    match verifyPatternSchema ro rs isWF with
    | (_, Some err) => (false, Some err)
    | (_, None) =>
        match verifyActionSchema rs isWF with
        | (_, Some err) => (false, Some err)
        | (_, None) => (true, None)
        end
    end.

(** *** Rule-set verification *)

(** [getSchema], over the registry [ruleSchemas]: the first schema of the
    class, or the zero value [RuleSchema{}] and an error. *)
Fixpoint getSchema (ruleSchemas : list RuleSchema) (class : string)
    : RuleSchema * option string :=
  match ruleSchemas with
  | [] => (RuleSchema.mk "" [] (ActionSchema.mk [] []),
           Some ("no schema found for class " ++ class))
  | s :: rest =>
      if String.eqb class (RuleSchema.class s)
      then (s, None)
      else getSchema rest class
  end.

Fixpoint getTypeIn (attrs : list AttrSchema) (name : string) : string :=
  match attrs with
  | [] => ""
  | as_ :: rest =>
      if String.eqb (AttrSchema.name as_) name
      then AttrSchema.valType as_
      else getTypeIn rest name
  end.

Definition getType (rs : RuleSchema) (name : string) : string :=
  getTypeIn (RuleSchema.patternSchema rs) name.

Fixpoint isStringInArray (s : string) (arr : list string) : bool :=
  match arr with
  | [] => false
  | a :: rest => if String.eqb a s then true else isStringInArray s rest
  end.

(** [verifyType]: a [switch] over the value-type constants, each case a
    type assertion on [val]. *)
Definition verifyType (val : GoAny) (valType : string) : bool :=
  if String.eqb valType typeBool
  then match val with AnyBool _ => true | _ => false end
  else if String.eqb valType typeInt
  then match val with AnyInt _ => true | _ => false end
  else if String.eqb valType typeFloat
  then match val with AnyFloat64 _ => true | _ => false end
  else if String.eqb valType typeStr || String.eqb valType typeEnum
  then match val with AnyString _ => true | _ => false end
  else if String.eqb valType typeTS
  then timeParse (match val with AnyString s => s | _ => "" end)
  else false.

(** The body of [for _, term := range rule.rulePattern]: the error the
    term is rejected with, if any. *)
Definition verifyTerm (schema : RuleSchema) (term : Term) : option string :=
  let attrName := Term.attrName term in
  let valType := getType schema attrName in
  let tagChecked :=
    if String.eqb valType ""
    then
      if negb (isStringInArray attrName
                 (ActionSchema.tasks (RuleSchema.actionSchema schema)))
      then inl ("attribute does not exist in schema: " ++ attrName)
      else inr typeBool
    else inr valType in
  match tagChecked with
  | inl err => Some err
  | inr valType =>
      if negb (verifyType (Term.attrVal term) valType)
      then Some ("value of this attribute does not match schema type: " ++ attrName)
      else if negb (goIndex validOps (Term.op term))
      then Some ("invalid operation in rule: " ++ Term.op term)
      else None
  end.

(** The search [for _, term := range rule.rulePattern] that sets
    [stepFound] and breaks at the first term on [step]. *)
Fixpoint stepFoundIn (terms : list Term) : bool :=
  match terms with
  | [] => false
  | term :: rest =>
      if String.eqb (Term.attrName term) step then true else stepFoundIn rest
  end.

(** The body of [for _, rule := range ruleSet.rules] in
    [verifyRulePatterns]. *)
Definition verifyRulePattern (setName : string) (schema : RuleSchema)
    (isWF : bool) (rule : Rule) : option string :=
  match firstReturn (verifyTerm schema) (Rule.rulePattern rule) with
  | Some err => Some err
  | None =>
      if isWF && negb (stepFoundIn (Rule.rulePattern rule))
      then Some ("no 'step' attribute found in a rule in workflow " ++ setName)
      else None
  end.

Definition verifyRulePatterns (ruleSet : RuleSet) (schema : RuleSchema)
    (isWF : bool) : Result :=
  match firstReturn (verifyRulePattern (RuleSet.setName ruleSet) schema isWF)
          (RuleSet.rules ruleSet) with
  | Some err => (false, Some err)
  | None => (true, None)
  end.

(** [areNextStepAndDoneInProps]: the loop sets each flag when it meets the
    entry for it. *)
Fixpoint nextStepAndDoneLoop (entries : list (string * string))
    (nsFound doneFound : bool) : bool * bool :=
  match entries with
  | [] => (nsFound, doneFound)
  | (name, val) :: rest =>
      let nsFound := if String.eqb name nextStep then true else nsFound in
      let doneFound :=
        if String.eqb name done && String.eqb val trueStr
        then true else doneFound in
      nextStepAndDoneLoop rest nsFound doneFound
  end.

Definition areNextStepAndDoneInProps (ro : RangeOrder)
    (props : gmap string string) : bool * bool :=
  nextStepAndDoneLoop (rangeOf ro props) false false.

Fixpoint getNextStepLoop (entries : list (string * string)) : string :=
  match entries with
  | [] => ""
  | (name, val) :: rest =>
      if String.eqb name nextStep then val else getNextStepLoop rest
  end.

Definition getNextStep (ro : RangeOrder) (props : gmap string string) : string :=
  getNextStepLoop (rangeOf ro props).

(** The bodies of [for _, t := range rule.ruleActions.tasks] and of
    [for propName := range rule.ruleActions.properties]. *)
Definition verifyRuleTask (actionSchema : ActionSchema) (t : string)
    : option string :=
  if negb (isStringInArray t (ActionSchema.tasks actionSchema))
  then Some ("task " ++ t ++ " not found in action-schema")
  else None.

Definition verifyRuleProp (actionSchema : ActionSchema)
    (entry : string * string) : option string :=
  let propName := entry.1 in
  if negb (isStringInArray propName (ActionSchema.properties actionSchema))
  then Some ("property name " ++ propName ++ " not found in action-schema")
  else None.

(** The body of [for _, rule := range ruleSet.rules] in
    [verifyRuleActions]. *)
Definition verifyRuleAction (ro : RangeOrder) (setName : string)
    (schema : RuleSchema) (isWF : bool) (rule : Rule) : option string :=
  let ruleActions := Rule.ruleActions rule in
  let tasks := RuleActions.tasks ruleActions in
  let properties := RuleActions.properties ruleActions in
  let actionSchema := RuleSchema.actionSchema schema in
  match firstReturn (verifyRuleTask actionSchema) tasks with
  | Some err => Some err
  | None =>
    match firstReturn (verifyRuleProp actionSchema) (rangeOf ro properties) with
    | Some err => Some err
    | None =>
        if RuleActions.willReturn ruleActions && RuleActions.willExit ruleActions
        then Some ("there is a rule with both the RETURN and EXIT instructions in ruleset "
                   ++ setName)
        else if isWF
        then
          let '(nsFound, doneFound) := areNextStepAndDoneInProps ro properties in
          if negb nsFound && negb doneFound
          then Some ("rule found with neither 'nextstep' nor 'done' in ruleset " ++ setName)
          else if negb doneFound && (length tasks =? 0)%nat
          then Some ("no tasks and no 'done=true' in a rule in ruleset " ++ setName)
          else
            let currNS := getNextStep ro properties in
            if (0 <? String.length currNS)%nat && negb (isStringInArray currNS tasks)
            then Some ("`nextstep` value not found in `tasks` in a rule in ruleset "
                       ++ setName)
            else None
        else None
    end
  end.

Definition verifyRuleActions (ro : RangeOrder) (ruleSet : RuleSet)
    (schema : RuleSchema) (isWF : bool) : Result :=
  match firstReturn (verifyRuleAction ro (RuleSet.setName ruleSet) schema isWF)
          (RuleSet.rules ruleSet) with
  | Some err => (false, Some err)
  | None => (true, None)
  end.

Definition verifyRuleSet (ro : RangeOrder) (ruleSchemas : list RuleSchema)
    (rs : RuleSet) (isWF : bool) : Result :=
  match getSchema ruleSchemas (RuleSet.class rs) with
  | (_, Some err) => (false, Some err)
  | (schema, None) =>
      match verifyRulePatterns rs schema isWF with
      | (_, Some err) => (false, Some err)
      | (_, None) =>
          match verifyRuleActions ro rs schema isWF with
          | (_, Some err) => (false, Some err)
          | (_, None) => (true, None)
          end
      end
  end.

(** *** Referential checks *)

(** [ruleSets] is the registry of rule sets, a map keyed by rule-set
    name. *)
Definition doesRuleSetExist (ruleSets : gmap string RuleSet) (name : string)
    : Result :=
  if (String.length name =? 0)%nat
  then (true, None)
  else
    match ruleSets !! name with
    | None => (false, Some ("ruleset " ++ name ++ " does not exist"))
    | Some _ => (true, None)
    end.

(** The body of [for _, r := range rs.rules] in [doReferentialChecks]:
    [return false, err] as soon as a lookup does not say [ok]. *)
Definition checkRuleCalls (ruleSets : gmap string RuleSet) (r : Rule)
    : option Result :=
  let '(ok, err) := doesRuleSetExist ruleSets
                      (RuleActions.thenCall (Rule.ruleActions r)) in
  if negb ok then Some (false, err)
  else
    let '(ok, err) := doesRuleSetExist ruleSets
                        (RuleActions.elseCall (Rule.ruleActions r)) in
    if negb ok then Some (false, err)
    else None.

Definition doReferentialChecks (ro : RangeOrder)
    (ruleSets : gmap string RuleSet) : Result :=
  match firstReturn (λ entry : string * RuleSet,
          firstReturn (checkRuleCalls ruleSets) (RuleSet.rules entry.2))
          (rangeOf ro ruleSets) with
  | Some r => r
  | None => (true, None)
  end.

(** *** Entity verification *)

(** [convertEntityAttrVal] is declared in another file of the package;
    [verifyEntity] reads only the error it returns. *)
Context (convertEntityAttrVal : GoAny → string → GoAny * option string).

(** The body of [for attrName, attrVal := range e.attrs]. *)
Definition verifyEntityAttr (rs : RuleSchema) (entry : string * GoAny)
    : option string :=
  let '(attrName, attrVal) := entry in
  let t := getType rs attrName in
  if String.eqb t ""
  then Some ("schema does not contain attribute " ++ attrName)
  else
    match convertEntityAttrVal attrVal t with
    | (_, Some _) =>
        Some ("attribute " ++ attrName ++ " in entity has value of wrong type")
    | (_, None) => None
    end.

Definition verifyEntity (ro : RangeOrder) (ruleSchemas : list RuleSchema)
    (e : Entity) : Result :=
  match getSchema ruleSchemas (Entity.class e) with
  | (_, Some err) => (false, Some err)
  | (rs, None) =>
      match firstReturn (verifyEntityAttr rs) (rangeOf ro (Entity.attrs e)) with
      | Some err => (false, Some err)
      | None =>
          if negb (size (Entity.attrs e) =? length (RuleSchema.patternSchema rs))%nat
          then (false, Some "entity does not contain all the attributes in its pattern-schema")
          else (true, None)
      end
  end.

End Verifiers.

(** ** The verifiers as computations on the package's variables

    [ruleSchemas] and [ruleSets] are variables of the package. [getSchema]
    ranges over the first; [doReferentialChecks] ranges over the second and
    [doesRuleSetExist] indexes it at every call. A computation [Go A] takes
    the two variables as it finds them and returns them as it leaves them,
    with its result. *)
Module Globals.
Record t : Type := mk {
  ruleSchemas : list RuleSchema.t;
  ruleSets : gmap string RuleSet.t
}.
End Globals.

Definition Go (A : Type) : Type := Globals.t → A * Globals.t.

Definition ret {A : Type} (a : A) : Go A := λ g, (a, g).

Definition bind {A B : Type} (m : Go A) (k : A → Go B) : Go B :=
  λ g, let '(a, g') := m g in k a g'.

Definition readRuleSchemas : Go (list RuleSchema) :=
  λ g, (Globals.ruleSchemas g, g).

Definition readRuleSets : Go (gmap string RuleSet) :=
  λ g, (Globals.ruleSets g, g).

(** [firstReturn] for a body that is itself a computation. *)
Fixpoint firstReturnGo {A R : Type} (body : A → Go (option R)) (l : list A)
    : Go (option R) :=
  match l with
  | [] => ret None
  | x :: rest =>
      bind (body x) (λ r,
        match r with
        | Some r => ret (Some r)
        | None => firstReturnGo body rest
        end)
  end.

Section VerifiersOnGlobals.
Context `{D : Decls}.

Definition getSchemaGo (class : string) : Go (RuleSchema * option string) :=
  bind readRuleSchemas (λ schemas, ret (getSchema schemas class)).

Definition verifyRuleSetGo (ro : RangeOrder) (rs : RuleSet) (isWF : bool)
    : Go Result :=
  bind (getSchemaGo (RuleSet.class rs)) (λ found,
    match found with
    | (_, Some err) => ret (false, Some err)
    | (schema, None) =>
        match verifyRulePatterns rs schema isWF with
        | (_, Some err) => ret (false, Some err)
        | (_, None) =>
            match verifyRuleActions ro rs schema isWF with
            | (_, Some err) => ret (false, Some err)
            | (_, None) => ret (true, None)
            end
        end
    end).

Definition doesRuleSetExistGo (name : string) : Go Result :=
  if (String.length name =? 0)%nat
  then ret (true, None)
  else
    bind readRuleSets (λ sets,
      match sets !! name with
      | None => ret (false, Some ("ruleset " ++ name ++ " does not exist"))
      | Some _ => ret (true, None)
      end).

Definition checkRuleCallsGo (r : Rule) : Go (option Result) :=
  bind (doesRuleSetExistGo (RuleActions.thenCall (Rule.ruleActions r))) (λ '(ok, err),
    if negb ok then ret (Some (false, err))
    else
      bind (doesRuleSetExistGo (RuleActions.elseCall (Rule.ruleActions r)))
        (λ '(ok, err),
          if negb ok then ret (Some (false, err))
          else ret None)).

Definition doReferentialChecksGo (ro : RangeOrder) : Go Result :=
  bind readRuleSets (λ sets,
    bind (firstReturnGo (λ entry : string * RuleSet,
            firstReturnGo checkRuleCallsGo (RuleSet.rules entry.2))
            (rangeOf ro sets)) (λ r,
      match r with
      | Some r => ret r
      | None => ret (true, None)
      end)).

Context (convertEntityAttrVal : GoAny → string → GoAny * option string).

Definition verifyEntityGo (ro : RangeOrder) (e : Entity) : Go Result :=
  bind (getSchemaGo (Entity.class e)) (λ found,
    match found with
    | (_, Some err) => ret (false, Some err)
    | (rs, None) =>
        match firstReturn (verifyEntityAttr convertEntityAttrVal rs)
                (rangeOf ro (Entity.attrs e)) with
        | Some err => ret (false, Some err)
        | None =>
            if negb (size (Entity.attrs e) =? length (RuleSchema.patternSchema rs))%nat
            then ret (false,
                      Some "entity does not contain all the attributes in its pattern-schema")
            else ret (true, None)
        end
    end).

End VerifiersOnGlobals.

(** ** Two runs and one set of declarations, to evaluate the verifiers *)

(** A run that enumerates every map in key order of its representation, and
    one that enumerates it the other way round. *)
Definition forwardOrder : RangeOrder :=
  {| rangeOf := λ V m, map_to_list m;
     rangeOf_perm := λ V m, reflexivity (map_to_list m) |}.

Definition backwardOrder : RangeOrder :=
  {| rangeOf := λ V m, reverse (map_to_list m);
     rangeOf_perm := λ V m, reverse_Permutation (map_to_list m) |}.

(** A timestamp of the shape [dddd-dd-ddTdd:dd:ddZ]. *)
Definition isTimestampShape (s : string) : bool :=
  match list_ascii_of_string s with
  | [y1; y2; y3; y4; d1; m1; m2; d2; a1; a2; t; h1; h2; c1; n1; n2; c2; s1; s2; z] =>
      forallb isDigit [y1; y2; y3; y4; m1; m2; a1; a2; h1; h2; n1; n2; s1; s2]
      && forallb (Ascii.eqb "-") [d1; d2] && forallb (Ascii.eqb ":") [c1; c2]
      && Ascii.eqb t "T" && Ascii.eqb z "Z"
  | _ => false
  end.

(** Modelled from the spec: the constants are declared in another file of
    the package; the spec names the value types {bool, int, float, str,
    enum, ts} and the operators {EQ, NE, LT, LE, GT, GE}, and has a [done]
    property hold "true" or "false". It does not give the timestamp layout;
    [isTimestampShape] stands for it. *)
#[export] Instance specDecls : Decls := {|
  typeBool := "bool"; typeInt := "int"; typeFloat := "float";
  typeStr := "str"; typeEnum := "enum"; typeTS := "ts";
  opEQ := "EQ"; opNE := "NE"; opLT := "LT";
  opLE := "LE"; opGT := "GT"; opGE := "GE";
  trueStr := "true";
  timeParse := isTimestampShape
|}.

(** Modelled from the spec: [convertEntityAttrVal] is declared in another
    file of the package; the entity validator "checks the value
    converts/type-matches (reusing §4.1)", so the conversion succeeds
    exactly when [verifyType] accepts the value. *)
Definition specConvert (val : GoAny) (valType : string) : GoAny * option string :=
  if verifyType val valType then (val, None)
  else (AnyNil, Some "value does not convert").

(** ** Notions the properties are stated with *)

(** The two outcomes of a verifier: [(true, nil)], or [false] with an
    error. *)
Definition accepted (r : Result) : Prop := r = (true, None).
Definition rejected (r : Result) : Prop := ∃ err, r = (false, Some err).

(** Two runs reach the same verdict: both accept, with [(true, nil)], or
    both reject. *)
Definition sameVerdict (r1 r2 : Result) : Prop :=
  (accepted r1 ∧ accepted r2) ∨ (rejected r1 ∧ rejected r2).

(** The names a pattern-schema declares. *)
Definition attrNames (rs : RuleSchema) : list string :=
  AttrSchema.name <$> RuleSchema.patternSchema rs.

(** The terms of a rule's pattern that are on [step]. *)
Definition stepTerms (rule : Rule) : list Term :=
  filter (λ term, Term.attrName term = step) (Rule.rulePattern rule).

(** The checks [verifyRuleActions] makes on every rule, workflow or not:
    each task and each property name of the rule is declared in the schema's
    action-schema, and the rule does not both return and exit. *)
Definition actionsDeclared (schema : RuleSchema) (rule : Rule) : Prop :=
  let ruleActions := Rule.ruleActions rule in
  let actionSchema := RuleSchema.actionSchema schema in
  (∀ t, t ∈ RuleActions.tasks ruleActions → t ∈ ActionSchema.tasks actionSchema)
  ∧ (∀ propName, is_Some (RuleActions.properties ruleActions !! propName) →
                 propName ∈ ActionSchema.properties actionSchema)
  ∧ ¬ (RuleActions.willReturn ruleActions = true
       ∧ RuleActions.willExit ruleActions = true).

(** The three errors of the workflow part of [verifyRuleActions]. *)
Definition neitherError (setName : string) : string :=
  "rule found with neither 'nextstep' nor 'done' in ruleset " ++ setName.

Definition noTasksError (setName : string) : string :=
  "no tasks and no 'done=true' in a rule in ruleset " ++ setName.

Definition nextStepError (setName : string) : string :=
  "`nextstep` value not found in `tasks` in a rule in ruleset " ++ setName.

(** The two sides of the workflow cross-check of [verifyActionSchema], as
    sets: the declared tasks with [START]; the values the first attribute
    named [step] maps to [true] (the test [vals[start]] of
    [verifyPatternSchema] reads a value as legal this way); and all the keys
    of that map. *)
Definition tasksWithStart (rs : RuleSchema) : gset string :=
  list_to_set (ActionSchema.tasks (RuleSchema.actionSchema rs)) ∪ {[start]}.

Definition legalStepValues (rs : RuleSchema) : gset string :=
  dom (filter (λ entry, entry.2 = true) (getStepAttrVals rs)).

Definition declaredStepValues (rs : RuleSchema) : gset string :=
  dom (getStepAttrVals rs).

(** The cross-check itself, as [verifyActionSchema] evaluates it. *)
Definition tasksMatchSteps (rs : RuleSchema) : bool :=
  DeepEqual (getTasksMapForWF (ActionSchema.tasks (RuleSchema.actionSchema rs)))
            (getStepAttrVals rs).

(** The rule-set names [doReferentialChecks] looks up, in the order it
    looks them up in a run: rule set by rule set as the run enumerates the
    registry, rule by rule, [thenCall] before [elseCall]. *)
Definition callsOf (r : Rule) : list string :=
  [RuleActions.thenCall (Rule.ruleActions r);
   RuleActions.elseCall (Rule.ruleActions r)].

Definition callsInOrder (ro : RangeOrder) (ruleSets : gmap string RuleSet)
    : list string :=
  flat_map (λ entry : string * RuleSet, flat_map callsOf (RuleSet.rules entry.2))
           (rangeOf ro ruleSets).

(** A name resolves when it is empty or is a key of the registry. *)
Definition resolves (ruleSets : gmap string RuleSet) (name : string) : Prop :=
  name = "" ∨ is_Some (ruleSets !! name).

Definition unresolved (ruleSets : gmap string RuleSet) (name : string) : bool :=
  negb (String.eqb name "") && bool_decide (ruleSets !! name = None).

(** A schema all of whose attributes are declared with a type; the schemas
    [verifyRuleSchema] admits are such (lemma [admitted_schema_typed]). *)
Definition typedSchema (rs : RuleSchema) : Prop :=
  ∀ a, a ∈ RuleSchema.patternSchema rs → AttrSchema.valType a ≠ "".

(** The results of two runs agree up to the entry of one map that the error
    names: they are equal, or both reject, each with an error of the given
    kind for one and the same map, out of the maps the verifier ranges
    over. *)
Definition agreeUpTo {M : Type} (maps : M → Prop) (kind : M → string → Prop)
    (r1 r2 : Result) : Prop :=
  r1 = r2
  ∨ ∃ m err1 err2, maps m ∧ kind m err1 ∧ kind m err2
                   ∧ r1 = (false, Some err1) ∧ r2 = (false, Some err2).

(** The errors of the four loops that range over a map, each for an entry
    of the map: an enum value among the values of an attribute, a property
    among the properties of a rule, a call of a rule of a rule set of the
    registry, an attribute among the attributes of an entity. *)
Definition enumValueError (vals : gmap string bool) (err : string) : Prop :=
  ∃ val b, vals !! val = Some b ∧ verifyEnumVal (val, b) = Some err.

Definition propertyError (actionSchema : ActionSchema)
    (properties : gmap string string) (err : string) : Prop :=
  ∃ propName val,
    properties !! propName = Some val
    ∧ verifyRuleProp actionSchema (propName, val) = Some err.

Definition callError (ruleSets : gmap string RuleSet) (err : string) : Prop :=
  ∃ key rs rule name,
    ruleSets !! key = Some rs ∧ rule ∈ RuleSet.rules rs ∧ name ∈ callsOf rule
    ∧ unresolved ruleSets name = true
    ∧ err = "ruleset " ++ name ++ " does not exist".

Definition attributeError
    (convertEntityAttrVal : GoAny → string → GoAny * option string)
    (rs : RuleSchema) (attrs : gmap string GoAny) (err : string) : Prop :=
  ∃ name val,
    attrs !! name = Some val
    ∧ verifyEntityAttr convertEntityAttrVal rs (name, val) = Some err.

(** ** Inputs the properties are evaluated on *)

(** The workflow schema of the spec's first scenario. *)
Definition orderSchema : RuleSchema :=
  RuleSchema.mk "order"
    [AttrSchema.mk "step" "enum"
       (list_to_map [("START", true); ("approve", true); ("reject", true)]);
     AttrSchema.mk "stepfailed" "bool" ∅]
    (ActionSchema.mk ["approve"; "reject"] ["nextstep"; "done"]).

(** A workflow rule with two terms on [step], and one with none. *)
Definition twoStepRule : Rule :=
  Rule.mk [Term.mk "step" "EQ" (AnyString "START");
           Term.mk "step" "NE" (AnyString "reject")]
          (RuleActions.mk ["approve"] {[ "nextstep" := "approve" ]} "" "" false false).

Definition noStepRule : Rule :=
  Rule.mk [Term.mk "stepfailed" "EQ" (AnyBool false)]
          (RuleActions.mk ["approve"] {[ "nextstep" := "approve" ]} "" "" false false).

Definition twoStepRuleSet : RuleSet := RuleSet.mk "order" "approval" [twoStepRule].
Definition noStepRuleSet : RuleSet := RuleSet.mk "order" "approval" [noStepRule].

(** A rule that tests the task [approve] as a tag, and one that tests a name
    the schema knows neither as an attribute nor as a task. *)
Definition tagRule : Rule :=
  Rule.mk [Term.mk "step" "EQ" (AnyString "START");
           Term.mk "approve" "EQ" (AnyBool true)]
          (RuleActions.mk ["reject"] {[ "nextstep" := "reject" ]} "" "" false false).

Definition unknownTerm : Term := Term.mk "colour" "EQ" (AnyString "red").

Definition unknownRule : Rule :=
  Rule.mk [unknownTerm]
          (RuleActions.mk ["reject"] {[ "nextstep" := "reject" ]} "" "" false false).

(** Workflow rules whose properties are, in turn: [done] set to "false" and
    no [nextstep]; [nextstep] set to the empty string. *)
Definition doneFalseRule : Rule :=
  Rule.mk [Term.mk "step" "EQ" (AnyString "approve")]
          (RuleActions.mk ["approve"] {[ "done" := "false" ]} "" "" false false).

Definition emptyNextStepRule : Rule :=
  Rule.mk [Term.mk "step" "EQ" (AnyString "START")]
          (RuleActions.mk ["approve"] {[ "nextstep" := "" ]} "" "" false false).

Definition strayNextStepRule : Rule :=
  Rule.mk [Term.mk "step" "EQ" (AnyString "START")]
          (RuleActions.mk ["approve"] {[ "nextstep" := "reject" ]} "" "" false false).

(** Workflow schemas whose [step] attribute has an entry mapped to [false]:
    one for a value that is not a task, one for a value that is. *)
Definition falseExtraSchema : RuleSchema :=
  RuleSchema.mk "order"
    [AttrSchema.mk "step" "enum"
       (list_to_map [("START", true); ("approve", true); ("reject", false)]);
     AttrSchema.mk "stepfailed" "bool" ∅]
    (ActionSchema.mk ["approve"] ["nextstep"; "done"]).

Definition falseTaskSchema : RuleSchema :=
  RuleSchema.mk "order"
    [AttrSchema.mk "step" "enum"
       (list_to_map [("START", true); ("approve", false)]);
     AttrSchema.mk "stepfailed" "bool" ∅]
    (ActionSchema.mk ["approve"] ["nextstep"; "done"]).

(** A schema that declares the attribute [x] twice, whatever the value-type
    constants are. *)
Definition twiceDeclaredSchema `{D : Decls} : RuleSchema :=
  RuleSchema.mk "order"
    [AttrSchema.mk "x" typeEnum {[ "a" := true ]};
     AttrSchema.mk "x" typeBool {[ "a" := true ]}]
    (ActionSchema.mk ["approve"] []).

(** The registry of the spec's fifth scenario: [R1] calls [R2], which is not
    registered; and one where it is. *)
Definition callingRule (target : string) : Rule :=
  Rule.mk [Term.mk "step" "EQ" (AnyString "START")]
          (RuleActions.mk ["approve"] {[ "nextstep" := "approve" ]} target "" false false).

Definition danglingRegistry : gmap string RuleSet :=
  {[ "R1" := RuleSet.mk "order" "R1" [callingRule "R2"] ]}.

Definition closedRegistry : gmap string RuleSet :=
  <[ "R2" := RuleSet.mk "order" "R2" [callingRule ""] ]> danglingRegistry.

(** The entities of the spec's sixth scenario, of one with every attribute,
    and of one with an attribute the schema does not declare. *)
Definition partialEntity : Entity :=
  Entity.mk "order" {[ "step" := AnyString "approve" ]}.

Definition fullEntity : Entity :=
  Entity.mk "order"
    (<[ "stepfailed" := AnyBool false ]> {[ "step" := AnyString "approve" ]}).

Definition extraEntity : Entity :=
  Entity.mk "order"
    (<[ "colour" := AnyString "red" ]> {[ "step" := AnyString "approve" ]}).

(** A workflow schema with two enum values that are not CruxIDs. *)
Definition twoBadValuesSchema : RuleSchema :=
  RuleSchema.mk "order"
    [AttrSchema.mk "step" "enum"
       (list_to_map [("START", true); ("Approve", true); ("Reject", true)]);
     AttrSchema.mk "stepfailed" "bool" ∅]
    (ActionSchema.mk ["approve"; "reject"] ["nextstep"; "done"]).

(** ** Notions for the properties beyond the specification's claims *)

(** What [verifyPatternSchema] asks of every attribute: a CruxID for a name,
    one of the value types, values when it is an enum, and for every value a
    CruxID or [START]. *)
Definition attrWellFormed `{D : Decls} (a : AttrSchema) : Prop :=
  MatchString (AttrSchema.name a) = true
  ∧ goIndex validTypes (AttrSchema.valType a) = true
  ∧ (AttrSchema.valType a = typeEnum → AttrSchema.vals a ≠ ∅)
  ∧ ∀ val, is_Some (AttrSchema.vals a !! val) →
           MatchString val = true ∨ val = start.

(** What it asks of the attributes of a workflow schema besides: [START]
    among the values of every attribute named [step], an enum attribute
    [step] and a bool attribute [stepfailed]. *)
Definition workflowAttrs `{D : Decls} (attrs : list AttrSchema) : Prop :=
  (∀ a, a ∈ attrs → AttrSchema.name a = step →
        goIndex (AttrSchema.vals a) start = true)
  ∧ (∃ a, a ∈ attrs ∧ AttrSchema.name a = step ∧ AttrSchema.valType a = typeEnum)
  ∧ (∃ a, a ∈ attrs ∧ AttrSchema.name a = stepFailed
          ∧ AttrSchema.valType a = typeBool).

(** A term [verifyRulePatterns] lets through: its attribute has a declared
    type that the literal matches, or has none and is a task tested against
    a Go [bool]; and its operator is one of the six. *)
Definition termWellTyped `{D : Decls} (schema : RuleSchema) (term : Term) : Prop :=
  (getType schema (Term.attrName term) ≠ ""
   ∧ verifyType (Term.attrVal term) (getType schema (Term.attrName term)) = true
   ∨ getType schema (Term.attrName term) = ""
     ∧ Term.attrName term ∈ ActionSchema.tasks (RuleSchema.actionSchema schema)
     ∧ ∃ b, Term.attrVal term = AnyBool b)
  ∧ Term.op term ∈ [opEQ; opNE; opLT; opLE; opGT; opGE].

(** What [verifyRuleActions] asks of a workflow rule besides
    [actionsDeclared]. *)
Definition workflowActions `{D : Decls} (rule : Rule) : Prop :=
  let props := RuleActions.properties (Rule.ruleActions rule) in
  let tasks := RuleActions.tasks (Rule.ruleActions rule) in
  (is_Some (props !! nextStep) ∨ props !! done = Some trueStr)
  ∧ (props !! done = Some trueStr ∨ tasks ≠ [])
  ∧ ∀ v, props !! nextStep = Some v → v ≠ "" → v ∈ tasks.

(** A schema with the values of every attribute replaced. *)
Definition withVals (f : AttrSchema → gmap string bool) (rs : RuleSchema)
    : RuleSchema :=
  RuleSchema.mk (RuleSchema.class rs)
    ((λ a, AttrSchema.mk (AttrSchema.name a) (AttrSchema.valType a) (f a))
       <$> RuleSchema.patternSchema rs)
    (RuleSchema.actionSchema rs).

(** In a registry, the schemas before the first one of a class. *)
Definition firstOfClass (ruleSchemas : list RuleSchema) (class : string)
    (rs : RuleSchema) : Prop :=
  ∃ pre post, ruleSchemas = (pre ++ rs :: post)%list
              ∧ RuleSchema.class rs = class
              ∧ ∀ s, s ∈ pre → RuleSchema.class s ≠ class.

(** Further inputs: a rule set without rules, a registry with two schemas
    of one class, an entity without attributes. *)
Definition emptyRuleSet : RuleSet := RuleSet.mk "order" "approval" [].

Definition shadowedSchema : RuleSchema :=
  RuleSchema.mk "order" [AttrSchema.mk "amount" "int" ∅] (ActionSchema.mk ["approve"] []).

Definition emptyEntity : Entity := Entity.mk "order" ∅.

(** ** Loops and map enumeration *)

Section Loops.
Context {A R : Type}.
Implicit Types (body : A → option R) (l : list A).

Lemma firstReturn_None body l :
  firstReturn body l = None ↔ ∀ x, x ∈ l → body x = None.
Proof.
  induction l as [|x l IH]; simpl.
  - split; [intros _ x Hx; inversion Hx | reflexivity].
  - destruct (body x) eqn:Hx.
    + split; [discriminate|]. intros H.
      rewrite (H x) in Hx by left. discriminate.
    + rewrite IH. split.
      * intros H y Hy. apply elem_of_cons in Hy as [->|Hy]; auto.
      * intros H y Hy. apply H. by right.
Qed.

Lemma firstReturn_Some body l r :
  firstReturn body l = Some r ↔
  ∃ pre x post, l = (pre ++ x :: post)%list
                ∧ (∀ y, y ∈ pre → body y = None) ∧ body x = Some r.
Proof.
  induction l as [|x l IH]; simpl.
  - split; [discriminate|]. intros (pre & y & post & Hl & _).
    by destruct pre.
  - destruct (body x) eqn:Hx.
    + split.
      * intros [= ->]. exists [], x, l. split_and!; [done| |done].
        intros y Hy. inversion Hy.
      * intros (pre & y & post & Hl & Hpre & Hy). destruct pre as [|p pre].
        -- simplify_eq/=. congruence.
        -- simplify_eq/=. rewrite (Hpre p) in Hx by left. discriminate.
    + rewrite IH. split.
      * intros (pre & y & post & -> & Hpre & Hy).
        exists (x :: pre), y, post. split_and!; [done| |done].
        intros z Hz. apply elem_of_cons in Hz as [->|Hz]; auto.
      * intros (pre & y & post & Hl & Hpre & Hy). destruct pre as [|p pre].
        -- by simplify_eq/=.
        -- simplify_eq/=. exists pre, y, post. split_and!; [done| |done].
           intros z Hz. apply Hpre. by right.
Qed.

Lemma firstReturn_Some_elem body l r :
  firstReturn body l = Some r → ∃ x, x ∈ l ∧ body x = Some r.
Proof.
  intros (pre & x & post & -> & _ & Hx)%firstReturn_Some.
  exists x. split; [|done]. apply elem_of_app. right. by left.
Qed.

Lemma firstReturn_ext body body' l :
  (∀ x, body x = body' x) → firstReturn body l = firstReturn body' l.
Proof.
  intros Hext. induction l as [|x l IH]; simpl; [done|]. by rewrite Hext, IH.
Qed.

(** Whether a loop runs to its end does not depend on the order of its
    elements; which element ends it does. *)
Lemma firstReturn_None_perm body l l' :
  l ≡ₚ l' → firstReturn body l = None → firstReturn body l' = None.
Proof.
  intros Hp. rewrite !firstReturn_None. intros H x Hx.
  apply H. by rewrite Hp.
Qed.

(** Two walks over the same elements both run to the end, or each is ended
    by one of the elements. *)
Lemma firstReturn_perm body l l' :
  l ≡ₚ l' →
  (firstReturn body l = None ∧ firstReturn body l' = None)
  ∨ ∃ x x' r r', x ∈ l ∧ x' ∈ l ∧ body x = Some r ∧ body x' = Some r'
                 ∧ firstReturn body l = Some r ∧ firstReturn body l' = Some r'.
Proof.
  intros Hp. destruct (firstReturn body l) as [r|] eqn:H1.
  - destruct (firstReturn body l') as [r'|] eqn:H2.
    + right. apply firstReturn_Some_elem in H1 as (x & Hx & Hbx).
      apply firstReturn_Some_elem in H2 as (x' & Hx' & Hbx').
      exists x, x', r, r'. rewrite <- Hp in Hx'. by split_and!.
    + apply (firstReturn_None_perm _ _ _ (symmetry Hp)) in H2. congruence.
  - left. split; [done|]. by apply (firstReturn_None_perm _ _ _ Hp).
Qed.

End Loops.

Section RangeOrders.
Context {V : Type}.
Implicit Types (m : gmap string V) (ro : RangeOrder).

Lemma elem_of_rangeOf ro m k v : (k, v) ∈ rangeOf ro m ↔ m !! k = Some v.
Proof. rewrite (rangeOf_perm ro V m). apply elem_of_map_to_list. Qed.

Lemma rangeOf_perm2 ro ro' m : rangeOf ro m ≡ₚ rangeOf ro' m.
Proof. by rewrite !rangeOf_perm. Qed.

Lemma NoDup_fst_rangeOf ro m : NoDup (rangeOf ro m).*1.
Proof. rewrite (rangeOf_perm ro V m). apply NoDup_fst_map_to_list. Qed.

Lemma list_to_map_rangeOf ro m : list_to_map (rangeOf ro m) = m.
Proof.
  rewrite <- (list_to_map_to_list m) at 2.
  apply list_to_map_proper; [apply NoDup_fst_rangeOf | apply rangeOf_perm].
Qed.

Lemma rangeOf_singleton ro k v :
  rangeOf ro ({[k := v]} : gmap string V) = [(k, v)].
Proof.
  apply Permutation_singleton_r. rewrite (rangeOf_perm ro V {[k := v]}).
  by rewrite map_to_list_singleton.
Qed.

End RangeOrders.

(** ** Helper functions *)

Section Helpers.
Context `{D : Decls}.

Lemma isStringInArray_true s arr : isStringInArray s arr = true ↔ s ∈ arr.
Proof.
  induction arr as [|a arr IH]; simpl.
  - split; [discriminate | intros H; inversion H].
  - rewrite elem_of_cons. destruct (String.eqb_spec a s) as [->|Hne].
    + split; auto.
    + rewrite IH. split; [auto | intros [->|]; [done | auto]].
Qed.

Lemma isStringInArray_false s arr : isStringInArray s arr = false ↔ s ∉ arr.
Proof. rewrite <- isStringInArray_true. by destruct (isStringInArray s arr). Qed.

Lemma getTypeIn_absent attrs name :
  name ∉ AttrSchema.name <$> attrs → getTypeIn attrs name = "".
Proof.
  induction attrs as [|a attrs IH]; simpl; [done|].
  rewrite not_elem_of_cons. intros [Hne Hnot].
  destruct (String.eqb_spec (AttrSchema.name a) name); [congruence | auto].
Qed.

Lemma getType_absent rs name : name ∉ attrNames rs → getType rs name = "".
Proof. apply getTypeIn_absent. Qed.

Lemma getTypeIn_declared attrs name :
  getTypeIn attrs name ≠ "" → name ∈ AttrSchema.name <$> attrs.
Proof.
  intros H. destruct (decide (name ∈ AttrSchema.name <$> attrs)); [done|].
  by rewrite getTypeIn_absent in H.
Qed.

(** [getType] stops at the first attribute of the name. *)
Lemma getTypeIn_first pre a post :
  AttrSchema.name a ∉ AttrSchema.name <$> pre →
  getTypeIn (pre ++ a :: post)%list (AttrSchema.name a) = AttrSchema.valType a.
Proof.
  induction pre as [|p pre IH]; simpl.
  - intros _. by rewrite String.eqb_refl.
  - rewrite not_elem_of_cons. intros [Hne Hnot].
    destruct (String.eqb_spec (AttrSchema.name p) (AttrSchema.name a));
      [congruence | auto].
Qed.

Lemma stepFoundIn_true terms :
  stepFoundIn terms = true ↔ ∃ term, term ∈ terms ∧ Term.attrName term = step.
Proof.
  induction terms as [|t terms IH]; simpl.
  - split; [discriminate | intros (t & Ht & _); inversion Ht].
  - destruct (String.eqb_spec (Term.attrName t) step) as [Heq|Hne].
    + split; [|done]. intros _. exists t. split; [left | done].
    + rewrite IH. split.
      * intros (t' & Ht' & Hs). exists t'. split; [by right | done].
      * intros (t' & Ht' & Hs). apply elem_of_cons in Ht' as [->|Ht'].
        -- done.
        -- by exists t'.
Qed.

Lemma verifyType_bool val :
  verifyType val typeBool = match val with AnyBool _ => true | _ => false end.
Proof. unfold verifyType. by rewrite String.eqb_refl. Qed.

Lemma verifyRulePatterns_outcome ruleSet schema isWF :
  accepted (verifyRulePatterns ruleSet schema isWF)
  ∨ rejected (verifyRulePatterns ruleSet schema isWF).
Proof.
  unfold verifyRulePatterns, accepted, rejected.
  destruct (firstReturn _ _); [right; eauto | by left].
Qed.

Lemma verifyRulePatterns_accepted ruleSet schema isWF :
  verifyRulePatterns ruleSet schema isWF = (true, None) ↔
  ∀ rule, rule ∈ RuleSet.rules ruleSet →
          verifyRulePattern (RuleSet.setName ruleSet) schema isWF rule = None.
Proof.
  unfold verifyRulePatterns. rewrite <- firstReturn_None.
  destruct (firstReturn _ _); split; (done || discriminate).
Qed.

Lemma verifyRulePattern_None setName schema isWF rule :
  verifyRulePattern setName schema isWF rule = None ↔
  (∀ term, term ∈ Rule.rulePattern rule → verifyTerm schema term = None)
  ∧ (isWF = true → stepFoundIn (Rule.rulePattern rule) = true).
Proof.
  unfold verifyRulePattern. rewrite <- firstReturn_None.
  destruct (firstReturn _ _).
  - split; [discriminate | intros [? _]; discriminate].
  - destruct isWF, (stepFoundIn _); simpl; split; try done; try discriminate.
    intros [_ H]. discriminate H; done.
Qed.

End Helpers.

(** ** The pattern pass of rule-set verification *)

Section RulePatterns.
Context `{D : Decls}.

Lemma stepFoundIn_stepTerms rule :
  stepFoundIn (Rule.rulePattern rule) = true ↔ (1 ≤ length (stepTerms rule))%nat.
Proof.
  rewrite stepFoundIn_true. unfold stepTerms. split.
  - intros (term & Hin & Hstep).
    assert (term ∈ filter (λ term, Term.attrName term = step) (Rule.rulePattern rule))
      as Hf by (apply list_elem_of_filter; done).
    destruct (filter _ _); [inversion Hf | simpl; lia].
  - destruct (filter _ _) as [|term l] eqn:Hf; simpl; [lia|]. intros _.
    assert (term ∈ filter (λ term, Term.attrName term = step) (Rule.rulePattern rule))
      as Hin by (rewrite Hf; left).
    apply list_elem_of_filter in Hin as [Hstep Hin]. eauto.
Qed.

(** What [verifyTerm] does with a term whose name the pattern-schema does
    not declare. *)
Lemma verifyTerm_undeclared schema term :
  Term.attrName term ∉ attrNames schema →
  verifyTerm schema term =
    if negb (isStringInArray (Term.attrName term)
               (ActionSchema.tasks (RuleSchema.actionSchema schema)))
    then Some ("attribute does not exist in schema: " ++ Term.attrName term)
    else if negb (verifyType (Term.attrVal term) typeBool)
    then Some ("value of this attribute does not match schema type: "
               ++ Term.attrName term)
    else if negb (goIndex validOps (Term.op term))
    then Some ("invalid operation in rule: " ++ Term.op term)
    else None.
Proof.
  intros Habs. unfold verifyTerm. rewrite (getType_absent _ _ Habs). simpl.
  by destruct (isStringInArray _ _).
Qed.

(** C1, as the code has it: a workflow rule set passes
    [verifyRulePatterns] only if every rule has at least one pattern term on
    [step]; a rule with no such term is rejected, and when its terms are
    themselves in order the error is the one about the missing [step]. Two
    or more terms on [step] are not looked for: a rule whose terms are in
    order passes with any number of terms on [step] from one on, and so does
    a rule set of such rules. *)
Theorem C1_workflow_rule_has_a_step_term ruleSet schema rule :
  rule ∈ RuleSet.rules ruleSet →
  (verifyRulePatterns ruleSet schema true = (true, None) →
   (1 ≤ length (stepTerms rule))%nat)
  ∧ (length (stepTerms rule) = 0 →
     rejected (verifyRulePatterns ruleSet schema true)
     ∧ ((∀ term, term ∈ Rule.rulePattern rule → verifyTerm schema term = None) →
        verifyRulePattern (RuleSet.setName ruleSet) schema true rule =
          Some ("no 'step' attribute found in a rule in workflow "
                ++ RuleSet.setName ruleSet)))
  ∧ ((∀ term, term ∈ Rule.rulePattern rule → verifyTerm schema term = None) →
     (1 ≤ length (stepTerms rule))%nat →
     verifyRulePattern (RuleSet.setName ruleSet) schema true rule = None)
  ∧ ((∀ r, r ∈ RuleSet.rules ruleSet →
           (∀ term, term ∈ Rule.rulePattern r → verifyTerm schema term = None)
           ∧ (1 ≤ length (stepTerms r))%nat) →
     verifyRulePatterns ruleSet schema true = (true, None)).
Proof.
  intros Hin.
  assert (∀ r, (∀ term, term ∈ Rule.rulePattern r → verifyTerm schema term = None) →
               (1 ≤ length (stepTerms r))%nat →
               verifyRulePattern (RuleSet.setName ruleSet) schema true r = None)
    as Hpass.
  { intros r Hterms Hstep. apply verifyRulePattern_None. split; [done|].
    intros _. by apply stepFoundIn_stepTerms. }
  assert (verifyRulePatterns ruleSet schema true = (true, None) →
          (1 ≤ length (stepTerms rule))%nat) as Hok.
  { rewrite verifyRulePatterns_accepted. intros H.
    apply stepFoundIn_stepTerms.
    specialize (H rule Hin). apply verifyRulePattern_None in H as [_ H]. auto. }
  split_and!.
  - done.
  - intros Hzero. split.
    + destruct (verifyRulePatterns_outcome ruleSet schema true) as [Hacc|Hrej];
        [|done].
      apply Hok in Hacc. lia.
    + intros Hterms. unfold verifyRulePattern.
      apply firstReturn_None in Hterms. rewrite Hterms.
      destruct (stepFoundIn (Rule.rulePattern rule)) eqn:Hfound; [|done].
      apply stepFoundIn_stepTerms in Hfound. lia.
  - by apply Hpass.
  - intros Hall. apply verifyRulePatterns_accepted. intros r Hr.
    destruct (Hall r Hr). by apply Hpass.
Qed.

(** C7: a term whose attribute name the bound schema's pattern-schema does
    not declare passes only if the name is one of the schema's tasks and the
    literal is a Go [bool]; when the name is not a task either, the term is
    rejected with the attribute-does-not-exist error and the rule set with
    it. *)
Theorem C7_undeclared_attribute_is_a_bool_tag ruleSet schema isWF rule term :
  rule ∈ RuleSet.rules ruleSet →
  term ∈ Rule.rulePattern rule →
  Term.attrName term ∉ attrNames schema →
  (verifyRulePatterns ruleSet schema isWF = (true, None) →
   Term.attrName term ∈ ActionSchema.tasks (RuleSchema.actionSchema schema)
   ∧ ∃ b, Term.attrVal term = AnyBool b)
  ∧ (Term.attrName term ∈ ActionSchema.tasks (RuleSchema.actionSchema schema) →
     (∀ b, Term.attrVal term ≠ AnyBool b) →
     verifyTerm schema term =
       Some ("value of this attribute does not match schema type: "
             ++ Term.attrName term))
  ∧ (Term.attrName term ∉ ActionSchema.tasks (RuleSchema.actionSchema schema) →
     verifyTerm schema term =
       Some ("attribute does not exist in schema: " ++ Term.attrName term)
     ∧ rejected (verifyRulePatterns ruleSet schema isWF)).
Proof.
  intros Hrule Hterm Habs.
  pose proof (verifyTerm_undeclared schema term Habs) as Hbody.
  assert (verifyRulePatterns ruleSet schema isWF = (true, None) →
          verifyTerm schema term = None) as Hok.
  { rewrite verifyRulePatterns_accepted. intros H.
    specialize (H rule Hrule). apply verifyRulePattern_None in H as [H _]. auto. }
  split; [|split].
  - intros Hnone%Hok. rewrite Hbody in Hnone.
    destruct (isStringInArray _ _) eqn:Htask; [|discriminate]. simpl in Hnone.
    apply isStringInArray_true in Htask. split; [done|].
    rewrite verifyType_bool in Hnone.
    destruct (Term.attrVal term); try discriminate. eauto.
  - intros Htask%isStringInArray_true Hval. rewrite Hbody, Htask. simpl.
    rewrite verifyType_bool.
    destruct (Term.attrVal term); try done. by destruct (Hval b).
  - intros Hnot%isStringInArray_false. rewrite Hbody, Hnot. simpl.
    split; [done|].
    destruct (verifyRulePatterns_outcome ruleSet schema isWF) as [Hacc|Hrej];
      [|done].
    apply Hok in Hacc. rewrite Hbody, Hnot in Hacc. discriminate.
Qed.

End RulePatterns.

(** C1 as stated fails: the rule set below is accepted as a workflow
    although its only rule has two terms on [step]. *)
Lemma C1_two_step_terms_accepted :
  verifyRulePatterns twoStepRuleSet orderSchema true = (true, None)
  ∧ twoStepRule ∈ RuleSet.rules twoStepRuleSet
  ∧ length (stepTerms twoStepRule) = 2.
Proof. split_and!; [by vm_compute | left | by vm_compute]. Qed.

Lemma C1_workflow_rule_has_a_step_term_witness :
  (1 ≤ length (stepTerms twoStepRule))%nat
  ∧ rejected (verifyRulePatterns noStepRuleSet orderSchema true)
  ∧ verifyRulePattern "approval" orderSchema true twoStepRule = None.
Proof.
  split_and!.
  - apply (C1_workflow_rule_has_a_step_term twoStepRuleSet orderSchema twoStepRule).
    + left.
    + vm_compute. reflexivity.
  - apply (C1_workflow_rule_has_a_step_term noStepRuleSet orderSchema noStepRule).
    + left.
    + vm_compute. reflexivity.
  - destruct (C1_workflow_rule_has_a_step_term twoStepRuleSet orderSchema twoStepRule)
      as (_ & _ & Hpass & _); [left|].
    apply Hpass.
    + intros term Hterm. simpl in Hterm.
      apply elem_of_cons in Hterm as [->|Hterm]; [vm_compute; reflexivity|].
      apply list_elem_of_singleton in Hterm. subst term. vm_compute. reflexivity.
    + vm_compute. lia.
Defined.

Lemma C7_undeclared_attribute_is_a_bool_tag_witness :
  ("approve" ∈ ActionSchema.tasks (RuleSchema.actionSchema orderSchema)
   ∧ ∃ b, AnyBool true = AnyBool b)
  ∧ rejected (verifyRulePatterns (RuleSet.mk "order" "approval" [unknownRule])
                orderSchema false).
Proof.
  split.
  - apply (C7_undeclared_attribute_is_a_bool_tag
             (RuleSet.mk "order" "approval" [tagRule]) orderSchema true tagRule
             (Term.mk "approve" "EQ" (AnyBool true))).
    + left.
    + right. left.
    + vm_compute. intros H. repeat (apply elem_of_cons in H as [H|H]; [discriminate H|]).
      inversion H.
    + vm_compute. reflexivity.
  - apply (C7_undeclared_attribute_is_a_bool_tag
             (RuleSet.mk "order" "approval" [unknownRule]) orderSchema false
             unknownRule unknownTerm).
    + left.
    + left.
    + vm_compute. intros H. repeat (apply elem_of_cons in H as [H|H]; [discriminate H|]).
      inversion H.
    + vm_compute. intros H. repeat (apply elem_of_cons in H as [H|H]; [discriminate H|]).
      inversion H.
Defined.

(** ** The action pass of rule-set verification *)

Section RuleActionsPass.
Context `{D : Decls}.

Lemma nextStepAndDoneLoop_flags entries nsFound doneFound :
  nextStepAndDoneLoop entries nsFound doneFound =
    (nsFound || existsb (λ e, String.eqb e.1 nextStep) entries,
     doneFound || existsb (λ e, String.eqb e.1 done && String.eqb e.2 trueStr) entries).
Proof.
  revert nsFound doneFound.
  induction entries as [|[name val] entries IH]; intros nsFound doneFound; simpl.
  - by rewrite !orb_false_r.
  - rewrite IH.
    destruct (String.eqb name nextStep), (String.eqb name done && String.eqb val trueStr),
      nsFound, doneFound; reflexivity.
Qed.

(** Both flags are read off the map itself, whatever the order of the
    walk. *)
Lemma areNextStepAndDoneInProps_lookup ro props :
  areNextStepAndDoneInProps ro props =
    (bool_decide (is_Some (props !! nextStep)),
     bool_decide (props !! done = Some trueStr)).
Proof.
  unfold areNextStepAndDoneInProps. rewrite nextStepAndDoneLoop_flags. simpl.
  f_equal.
  - apply eq_true_iff_eq. rewrite existsb_exists, bool_decide_eq_true. split.
    + intros ([k v] & Hin & Hk). simpl in Hk. apply String.eqb_eq in Hk as ->.
      apply list_elem_of_In, elem_of_rangeOf in Hin. eauto.
    + intros [v Hv]. exists (nextStep, v). split; [|apply String.eqb_refl].
      by apply list_elem_of_In, elem_of_rangeOf.
  - apply eq_true_iff_eq. rewrite existsb_exists, bool_decide_eq_true. split.
    + intros ([k v] & Hin & Hkv). simpl in Hkv.
      apply andb_true_iff in Hkv as [->%String.eqb_eq ->%String.eqb_eq].
      by apply list_elem_of_In, elem_of_rangeOf in Hin.
    + intros Hv. exists (done, trueStr). split.
      * by apply list_elem_of_In, elem_of_rangeOf.
      * simpl. by rewrite !String.eqb_refl.
Qed.

Lemma getNextStepLoop_lookup entries :
  getNextStepLoop entries =
    default "" ((list_to_map entries : gmap string string) !! nextStep).
Proof.
  induction entries as [|[name val] entries IH]; simpl; [done|].
  destruct (String.eqb_spec name nextStep) as [->|Hne].
  - by rewrite lookup_insert_eq.
  - by rewrite lookup_insert_ne.
Qed.

Lemma getNextStep_lookup ro props :
  getNextStep ro props = default "" (props !! nextStep).
Proof.
  unfold getNextStep. by rewrite getNextStepLoop_lookup, list_to_map_rangeOf.
Qed.

Lemma ruleTasks_declared actionSchema tasks :
  firstReturn (verifyRuleTask actionSchema) tasks = None ↔
  ∀ t, t ∈ tasks → t ∈ ActionSchema.tasks actionSchema.
Proof.
  rewrite firstReturn_None. unfold verifyRuleTask.
  split; intros H t Ht; specialize (H t Ht).
  - apply isStringInArray_true. by destruct (isStringInArray _ _).
  - apply isStringInArray_true in H. by rewrite H.
Qed.

Lemma ruleProps_declared ro actionSchema (props : gmap string string) :
  firstReturn (verifyRuleProp actionSchema) (rangeOf ro props) = None ↔
  ∀ propName, is_Some (props !! propName) →
              propName ∈ ActionSchema.properties actionSchema.
Proof.
  rewrite firstReturn_None. unfold verifyRuleProp. split.
  - intros H k [v Hv]. specialize (H (k, v)). simpl in H.
    apply isStringInArray_true. destruct (isStringInArray _ _); [done|].
    discriminate H. by apply elem_of_rangeOf.
  - intros H [k v] Hin%elem_of_rangeOf. simpl.
    assert (k ∈ ActionSchema.properties actionSchema) as Hk by eauto.
    apply isStringInArray_true in Hk. by rewrite Hk.
Qed.

(** The errors of the loops over tasks and properties are none of the
    workflow errors. *)
Lemma verifyRuleTask_error actionSchema t err :
  verifyRuleTask actionSchema t = Some err →
  err = "task " ++ t ++ " not found in action-schema".
Proof. unfold verifyRuleTask. destruct (negb _); congruence. Qed.

Lemma verifyRuleProp_error actionSchema entry err :
  verifyRuleProp actionSchema entry = Some err →
  err = "property name " ++ entry.1 ++ " not found in action-schema".
Proof. unfold verifyRuleProp. simpl. destruct (negb _); congruence. Qed.

(** The body of the loop of [verifyRuleActions], case by case: the checks
    common to all rule sets, then the three workflow checks in the order of
    the code. *)
Lemma verifyRuleAction_cases ro setName schema isWF rule :
  let ruleActions := Rule.ruleActions rule in
  let props := RuleActions.properties ruleActions in
  let tasks := RuleActions.tasks ruleActions in
  (¬ actionsDeclared schema rule
   ∧ ∃ err, verifyRuleAction ro setName schema isWF rule = Some err
            ∧ err ≠ neitherError setName ∧ err ≠ noTasksError setName
            ∧ err ≠ nextStepError setName)
  ∨ (actionsDeclared schema rule
     ∧ verifyRuleAction ro setName schema isWF rule =
         if isWF then
           if bool_decide (props !! nextStep = None ∧ props !! done ≠ Some trueStr)
           then Some (neitherError setName)
           else if bool_decide (props !! done ≠ Some trueStr ∧ tasks = [])
           then Some (noTasksError setName)
           else if bool_decide (default "" (props !! nextStep) ≠ ""
                                ∧ default "" (props !! nextStep) ∉ tasks)
           then Some (nextStepError setName)
           else None
         else None).
Proof.
  intros ruleActions props tasks. unfold verifyRuleAction, actionsDeclared.
  fold ruleActions. fold props. fold tasks.
  destruct (firstReturn (verifyRuleTask _) _) as [err|] eqn:Ht.
  { left. split.
    - intros (Htasks & _). apply ruleTasks_declared in Htasks. congruence.
    - exists err. split; [done|].
      apply firstReturn_Some_elem in Ht as (t & _ & ->%verifyRuleTask_error).
      split_and!; discriminate. }
  rewrite ruleTasks_declared in Ht.
  destruct (firstReturn (verifyRuleProp _) _) as [err|] eqn:Hp.
  { left. split.
    - intros (_ & Hprops & _). apply (ruleProps_declared ro) in Hprops. congruence.
    - exists err. split; [done|].
      apply firstReturn_Some_elem in Hp as (e & _ & ->%verifyRuleProp_error).
      split_and!; discriminate. }
  rewrite ruleProps_declared in Hp.
  destruct (RuleActions.willReturn ruleActions && RuleActions.willExit ruleActions)
    eqn:Hre.
  { left. split.
    - intros (_ & _ & Hnot). by apply andb_true_iff in Hre.
    - eexists. split; [done|]. split_and!; discriminate. }
  right. split.
  { split_and!; [done..|]. intros [Hr He]. by rewrite Hr, He in Hre. }
  destruct isWF; [|done].
  rewrite areNextStepAndDoneInProps_lookup, getNextStep_lookup.
  assert (∀ s : string, (0 <? String.length s)%nat = bool_decide (s ≠ "")) as Hlen
    by (by intros [|c s']).
  assert ((length tasks =? 0)%nat = bool_decide (tasks = [])) as Hnil
    by (by destruct tasks).
  assert (∀ s, isStringInArray s tasks = bool_decide (s ∈ tasks)) as Hin.
  { intros s. apply eq_true_iff_eq.
    by rewrite isStringInArray_true, bool_decide_eq_true. }
  rewrite Hlen, Hnil, Hin. simpl.
  destruct (props !! nextStep) as [ns|] eqn:Hns; simpl;
    repeat case_bool_decide; simpl; try done; exfalso;
    naive_solver eauto using is_Some_None.
Qed.

End RuleActionsPass.

Section RuleActionsClaims.
Context `{D : Decls}.

Lemma verifyRuleActions_outcome ro ruleSet schema isWF :
  accepted (verifyRuleActions ro ruleSet schema isWF)
  ∨ rejected (verifyRuleActions ro ruleSet schema isWF).
Proof.
  unfold verifyRuleActions, accepted, rejected.
  destruct (firstReturn _ _); [right; eauto | by left].
Qed.

Lemma verifyRuleActions_accepted ro ruleSet schema isWF :
  verifyRuleActions ro ruleSet schema isWF = (true, None) ↔
  ∀ rule, rule ∈ RuleSet.rules ruleSet →
          verifyRuleAction ro (RuleSet.setName ruleSet) schema isWF rule = None.
Proof.
  unfold verifyRuleActions. rewrite <- firstReturn_None.
  destruct (firstReturn _ _); split; (done || discriminate).
Qed.

Lemma verifyRuleActions_error ro ruleSet schema isWF err :
  verifyRuleActions ro ruleSet schema isWF = (false, Some err) ↔
  ∃ pre rule post,
    RuleSet.rules ruleSet = (pre ++ rule :: post)%list
    ∧ (∀ r, r ∈ pre →
            verifyRuleAction ro (RuleSet.setName ruleSet) schema isWF r = None)
    ∧ verifyRuleAction ro (RuleSet.setName ruleSet) schema isWF rule = Some err.
Proof.
  unfold verifyRuleActions. rewrite <- firstReturn_Some.
  destruct (firstReturn _ _); split; try discriminate; congruence.
Qed.

(** C2, as the code has it: for a workflow rule the body of
    [verifyRuleActions] gives the neither-nextstep-nor-done error exactly
    when the rule passes the checks on declared tasks, declared properties
    and RETURN/EXIT, has no [nextstep] entry, and has no [done] entry whose
    value is [trueStr]; the function returns that error exactly when the
    first rule it does not pass is such a rule. A [done] entry with another
    value counts as no entry. *)
Theorem C2_neither_error_iff_no_nextstep_and_no_done_true ro ruleSet schema :
  let setName := RuleSet.setName ruleSet in
  let neither (rule : Rule) :=
    actionsDeclared schema rule
    ∧ RuleActions.properties (Rule.ruleActions rule) !! nextStep = None
    ∧ RuleActions.properties (Rule.ruleActions rule) !! done ≠ Some trueStr in
  (∀ rule, verifyRuleAction ro setName schema true rule = Some (neitherError setName)
           ↔ neither rule)
  ∧ (verifyRuleActions ro ruleSet schema true = (false, Some (neitherError setName))
     ↔ ∃ pre rule post,
         RuleSet.rules ruleSet = (pre ++ rule :: post)%list
         ∧ (∀ r, r ∈ pre → verifyRuleAction ro setName schema true r = None)
         ∧ neither rule).
Proof.
  intros setName neither.
  assert (∀ rule, verifyRuleAction ro setName schema true rule
                  = Some (neitherError setName) ↔ neither rule) as Hbody.
  { intros rule. unfold neither.
    destruct (verifyRuleAction_cases ro setName schema true rule)
      as [(Hnot & err & -> & Hne & _)|(Hdecl & ->)].
    - split; [congruence | tauto].
    - split.
      + intros H. repeat case_bool_decide; try done;
          unfold neitherError, noTasksError, nextStepError in H; discriminate H.
      + intros (_ & Hns & Hd). by rewrite bool_decide_eq_true_2. }
  split; [done|].
  rewrite verifyRuleActions_error. fold setName.
  split; intros (pre & rule & post & Hrules & Hpre & Hrule);
    exists pre, rule, post; split_and!; try done; by apply Hbody.
Qed.

(** C4, as the code has it: in a rule set that passes [verifyRuleActions]
    as a workflow, a [nextstep] property with a non-empty value names one of
    the rule's own tasks; a rule where it does not is rejected, with the
    nextstep error when the checks before it pass. An empty [nextstep] value
    is not looked up among the tasks: when the checks before the lookup
    pass, the rule passes exactly when its [nextstep] value is empty or one
    of its tasks. *)
Theorem C4_nonempty_nextstep_is_among_tasks ro ruleSet schema rule v :
  let ruleActions := Rule.ruleActions rule in
  rule ∈ RuleSet.rules ruleSet →
  RuleActions.properties ruleActions !! nextStep = Some v →
  (v ≠ "" →
   (verifyRuleActions ro ruleSet schema true = (true, None) →
    v ∈ RuleActions.tasks ruleActions)
   ∧ (v ∉ RuleActions.tasks ruleActions →
      rejected (verifyRuleActions ro ruleSet schema true)
      ∧ (actionsDeclared schema rule →
         (RuleActions.properties ruleActions !! done = Some trueStr
          ∨ RuleActions.tasks ruleActions ≠ []) →
         verifyRuleAction ro (RuleSet.setName ruleSet) schema true rule =
           Some (nextStepError (RuleSet.setName ruleSet)))))
  ∧ (v = "" →
     actionsDeclared schema rule →
     (RuleActions.properties ruleActions !! done = Some trueStr
      ∨ RuleActions.tasks ruleActions ≠ []) →
     verifyRuleAction ro (RuleSet.setName ruleSet) schema true rule = None)
  ∧ (actionsDeclared schema rule →
     (RuleActions.properties ruleActions !! done = Some trueStr
      ∨ RuleActions.tasks ruleActions ≠ []) →
     (verifyRuleAction ro (RuleSet.setName ruleSet) schema true rule = None
      ↔ v = "" ∨ v ∈ RuleActions.tasks ruleActions)).
Proof.
  intros ruleActions Hrule Hns.
  pose proof (verifyRuleAction_cases ro (RuleSet.setName ruleSet) schema true rule)
    as Hcases. simpl in Hcases. fold ruleActions in Hcases. rewrite Hns in Hcases.
  simpl in Hcases.
  assert (actionsDeclared schema rule →
          (RuleActions.properties ruleActions !! done = Some trueStr
           ∨ RuleActions.tasks ruleActions ≠ []) →
          (verifyRuleAction ro (RuleSet.setName ruleSet) schema true rule = None
           ↔ v = "" ∨ v ∈ RuleActions.tasks ruleActions)) as Hbody.
  { intros Hdecl Hdone.
    destruct Hcases as [(Hnd & _)|(_ & ->)]; [done|].
    destruct (decide (v = "")) as [Hv|Hv],
      (decide (v ∈ RuleActions.tasks ruleActions)) as [Hin|Hin];
      repeat case_bool_decide; try done; naive_solver. }
  split_and!.
  - intros Hv.
    assert (verifyRuleActions ro ruleSet schema true = (true, None) →
            v ∈ RuleActions.tasks ruleActions) as Hok.
    { rewrite verifyRuleActions_accepted. intros H. specialize (H rule Hrule).
      destruct Hcases as [(_ & err & Herr & _)|(_ & Hbody')]; [congruence|].
      rewrite Hbody' in H.
      destruct (decide (v ∈ RuleActions.tasks ruleActions)); [done|].
      repeat case_bool_decide; try done; naive_solver. }
    split; [done|]. intros Hnot. split.
    + destruct (verifyRuleActions_outcome ro ruleSet schema true) as [Hacc|Hrej];
        [|done].
      by apply Hok in Hacc.
    + intros Hdecl Hdone.
      destruct Hcases as [(Hnd & _)|(_ & ->)]; [done|].
      repeat case_bool_decide; try done; naive_solver.
  - intros Hv Hdecl Hdone. apply Hbody; auto.
  - done.
Qed.

End RuleActionsClaims.

(** C2 as stated fails: a workflow rule whose properties hold [done] with
    the value "false" gets the neither-nextstep-nor-done error, in every
    run. *)
Lemma C2_done_false_gets_neither_error :
  RuleActions.properties (Rule.ruleActions doneFalseRule) !! done = Some "false"
  ∧ (∀ ro, verifyRuleActions ro (RuleSet.mk "order" "approval" [doneFalseRule])
             orderSchema true
           = (false,
              Some "rule found with neither 'nextstep' nor 'done' in ruleset approval")).
Proof.
  split; [by vm_compute|]. intros ro.
  unfold verifyRuleActions, verifyRuleAction, areNextStepAndDoneInProps, getNextStep.
  simpl. rewrite !rangeOf_singleton. by vm_compute.
Qed.

(** C4 as stated fails: a workflow rule that sets [nextstep] to the empty
    string passes, in every run, and the empty string is none of its
    tasks. *)
Lemma C4_empty_nextstep_accepted :
  RuleActions.properties (Rule.ruleActions emptyNextStepRule) !! nextStep = Some ""
  ∧ ("" ∉ RuleActions.tasks (Rule.ruleActions emptyNextStepRule))
  ∧ (∀ ro, verifyRuleActions ro (RuleSet.mk "order" "approval" [emptyNextStepRule])
             orderSchema true = (true, None)).
Proof.
  split_and!.
  - by vm_compute.
  - simpl. by intros [=]%list_elem_of_singleton.
  - intros ro.
    unfold verifyRuleActions, verifyRuleAction, areNextStepAndDoneInProps, getNextStep.
    simpl. rewrite !rangeOf_singleton. by vm_compute.
Qed.

Lemma C4_nonempty_nextstep_is_among_tasks_witness :
  "approve" ∈ RuleActions.tasks (Rule.ruleActions twoStepRule)
  ∧ rejected (verifyRuleActions forwardOrder
                (RuleSet.mk "order" "approval" [strayNextStepRule]) orderSchema true)
  ∧ verifyRuleAction backwardOrder "approval" orderSchema true emptyNextStepRule
    = None.
Proof.
  split_and!.
  - apply (C4_nonempty_nextstep_is_among_tasks forwardOrder twoStepRuleSet
             orderSchema twoStepRule "approve").
    + left.
    + vm_compute. reflexivity.
    + discriminate.
    + vm_compute. reflexivity.
  - apply (C4_nonempty_nextstep_is_among_tasks forwardOrder
             (RuleSet.mk "order" "approval" [strayNextStepRule])
             orderSchema strayNextStepRule "reject").
    + left.
    + vm_compute. reflexivity.
    + discriminate.
    + vm_compute. intros H. apply elem_of_cons in H as [H|H]; [discriminate H|].
      inversion H.
  - destruct (C4_nonempty_nextstep_is_among_tasks backwardOrder
                (RuleSet.mk "order" "approval" [emptyNextStepRule])
                orderSchema emptyNextStepRule "") as (_ & Hempty & _).
    + left.
    + vm_compute. reflexivity.
    + apply Hempty; [reflexivity | | right; discriminate].
      split_and!.
      * intros t Ht. simpl in Ht. apply list_elem_of_singleton in Ht. subst t. left.
      * intros propName [val Hval]. simpl in Hval.
        apply lookup_singleton_Some in Hval as [<- _]. left.
      * intros [Hreturn _]. discriminate Hreturn.
Defined.

(** ** Schema verification *)

Section SchemaClaims.
Context `{D : Decls}.

Lemma verifyPatternSchema_outcome ro rs isWF :
  accepted (verifyPatternSchema ro rs isWF) ∨ rejected (verifyPatternSchema ro rs isWF).
Proof.
  unfold verifyPatternSchema, accepted, rejected.
  destruct (length _ =? 0)%nat; [right; eauto|].
  destruct (patternSchemaLoop _ _ _ _ _ _) as [err|[stepFound stepFailedFound]];
    [right; eauto|].
  destruct (isWF && _); [right; eauto | by left].
Qed.

Lemma verifyActionSchema_outcome rs isWF :
  accepted (verifyActionSchema rs isWF) ∨ rejected (verifyActionSchema rs isWF).
Proof.
  unfold verifyActionSchema, accepted, rejected.
  repeat match goal with
         | |- context [match ?x with _ => _ end] => destruct x
         end; (by left) || (right; eauto).
Qed.

Lemma verifyRuleSchema_outcome ro rs isWF :
  accepted (verifyRuleSchema ro rs isWF) ∨ rejected (verifyRuleSchema ro rs isWF).
Proof.
  unfold verifyRuleSchema.
  destruct (String.length _ =? 0)%nat; [right; by eexists|].
  destruct (verifyPatternSchema_outcome ro rs isWF) as [->|[err ->]];
    [|right; by eexists].
  destruct (verifyActionSchema_outcome rs isWF) as [->|[err ->]];
    [by left | right; by eexists].
Qed.

(** An accepted schema passed both of its passes. *)
Lemma verifyRuleSchema_accepted ro rs isWF :
  verifyRuleSchema ro rs isWF = (true, None) ↔
  RuleSchema.class rs ≠ ""
  ∧ verifyPatternSchema ro rs isWF = (true, None)
  ∧ verifyActionSchema rs isWF = (true, None).
Proof.
  unfold verifyRuleSchema.
  destruct (RuleSchema.class rs) as [|c cls] eqn:Hclass; simpl.
  { split; [discriminate | by intros [? _]]. }
  destruct (verifyPatternSchema_outcome ro rs isWF) as [->|[err ->]].
  - destruct (verifyActionSchema_outcome rs isWF) as [->|[err ->]].
    + done.
    + split; [discriminate | by intros (_ & _ & ?)].
  - split; [discriminate | by intros (_ & ? & _)].
Qed.

Lemma foldl_insert_true_lookup (tasks : list string) (acc : gmap string bool) k :
  foldl (λ tm t, <[t := true]> tm) acc tasks !! k =
    if bool_decide (k ∈ tasks) then Some true else acc !! k.
Proof.
  revert acc. induction tasks as [|t tasks IH]; intros acc; cbn [foldl].
  - rewrite bool_decide_eq_false_2; [done | apply not_elem_of_nil].
  - rewrite IH. destruct (decide (t = k)) as [->|Hne].
    + rewrite lookup_insert_eq.
      rewrite (bool_decide_eq_true_2 (k ∈ k :: tasks)) by left.
      by case_bool_decide.
    + rewrite lookup_insert_ne by done.
      assert (bool_decide (k ∈ t :: tasks) = bool_decide (k ∈ tasks)) as ->; [|done].
      apply bool_decide_ext. rewrite elem_of_cons. naive_solver.
Qed.

(** [getTasksMapForWF] maps the tasks and [START] to [true], and nothing
    else. *)
Lemma getTasksMapForWF_lookup tasks k :
  getTasksMapForWF tasks !! k =
    if bool_decide (k ∈ tasks ∨ k = start) then Some true else None.
Proof.
  unfold getTasksMapForWF. destruct (decide (start = k)) as [<-|Hne].
  - rewrite lookup_insert_eq. rewrite bool_decide_eq_true_2; [done | by right].
  - rewrite lookup_insert_ne by done. rewrite foldl_insert_true_lookup, lookup_empty.
    repeat case_bool_decide; try done; naive_solver.
Qed.

Lemma tasksMatchSteps_true rs :
  tasksMatchSteps rs = true ↔
  declaredStepValues rs = tasksWithStart rs
  ∧ ∀ k, getStepAttrVals rs !! k ≠ Some false.
Proof.
  unfold tasksMatchSteps, DeepEqual, declaredStepValues, tasksWithStart.
  rewrite bool_decide_eq_true.
  set (tasks := ActionSchema.tasks (RuleSchema.actionSchema rs)).
  set (vals := getStepAttrVals rs). split.
  - intros Heq. split.
    + apply set_eq. intros k. rewrite elem_of_dom, <- Heq, getTasksMapForWF_lookup.
      rewrite elem_of_union, elem_of_list_to_set, elem_of_singleton.
      case_bool_decide; [split; eauto | split; [by intros [? ?] | done]].
    + intros k. rewrite <- Heq, getTasksMapForWF_lookup. by case_bool_decide.
  - intros [Hdom Htrue]. apply map_eq. intros k.
    rewrite getTasksMapForWF_lookup.
    assert (k ∈ dom vals ↔ k ∈ tasks ∨ k = start) as Hk.
    { rewrite Hdom, elem_of_union, elem_of_list_to_set, elem_of_singleton. done. }
    rewrite elem_of_dom in Hk. specialize (Htrue k).
    case_bool_decide as Hin.
    + apply Hk in Hin as [[|] Hv]; [done | by rewrite Hv in Htrue].
    + destruct (vals !! k) eqn:Hv; [|done]. destruct Hin. apply Hk. eauto.
Qed.

Lemma legalStepValues_all_true rs :
  (∀ k, getStepAttrVals rs !! k ≠ Some false) →
  legalStepValues rs = declaredStepValues rs.
Proof.
  intros Htrue. unfold legalStepValues, declaredStepValues. f_equal.
  apply map_filter_id. intros k [|] Hk; [done|]. by destruct (Htrue k).
Qed.

Lemma verifyActionSchema_workflow_accepted rs :
  verifyActionSchema rs true = (true, None) → tasksMatchSteps rs = true.
Proof.
  unfold verifyActionSchema, tasksMatchSteps. simpl.
  repeat match goal with
         | |- context [match ?x with _ => _ end] => destruct x eqn:?
         end; try discriminate.
  intros _.
  match goal with H : negb _ = false |- _ => by apply negb_false_iff in H end.
Qed.

End SchemaClaims.

Section SchemaTheorems.
Context `{D : Decls}.

(** C3, as the code has it: the cross-check compares the two maps, so it
    passes exactly when the first [step] attribute's [vals] has the declared
    tasks and [START] as its keys and maps none of them to [false]. A
    workflow schema is accepted only if the two sets have the same members,
    a schema where they differ is rejected, and among schemas whose [vals]
    has no [false] entry the cross-check passes exactly when the sets have
    the same members. *)
Theorem C3_tasks_match_steps ro rs :
  (tasksMatchSteps rs = true ↔
   declaredStepValues rs = tasksWithStart rs
   ∧ ∀ k, getStepAttrVals rs !! k ≠ Some false)
  ∧ (verifyRuleSchema ro rs true = (true, None) →
     tasksMatchSteps rs = true
     ∧ legalStepValues rs = tasksWithStart rs
     ∧ declaredStepValues rs = tasksWithStart rs)
  ∧ (legalStepValues rs ≠ tasksWithStart rs
     ∨ declaredStepValues rs ≠ tasksWithStart rs →
     tasksMatchSteps rs = false ∧ rejected (verifyRuleSchema ro rs true))
  ∧ ((∀ k, getStepAttrVals rs !! k ≠ Some false) →
     (tasksMatchSteps rs = true ↔ legalStepValues rs = tasksWithStart rs)).
Proof.
  pose proof (tasksMatchSteps_true rs) as Hmatch.
  assert (tasksMatchSteps rs = true →
          legalStepValues rs = tasksWithStart rs
          ∧ declaredStepValues rs = tasksWithStart rs) as Hsets.
  { intros [Hdom Htrue]%Hmatch. by rewrite legalStepValues_all_true. }
  assert (verifyRuleSchema ro rs true = (true, None) → tasksMatchSteps rs = true)
    as Hok.
  { intros (_ & _ & Hact)%verifyRuleSchema_accepted.
    by apply verifyActionSchema_workflow_accepted. }
  split_and!.
  - done.
  - intros Hacc. split; [auto | apply Hsets; auto].
  - intros Hdiff.
    assert (tasksMatchSteps rs = false) as Hfalse.
    { destruct (tasksMatchSteps rs); [|done]. destruct Hsets; [done|]. tauto. }
    split; [done|].
    destruct (verifyRuleSchema_outcome ro rs true) as [Hacc|Hrej]; [|done].
    apply Hok in Hacc. congruence.
  - intros Htrue. rewrite Hmatch, legalStepValues_all_true by done. tauto.
Qed.

(** C8: [verifyRuleSchema] returns the first violation in the order class
    name, pattern-schema, action-schema. With an empty class name the error
    is the class error whatever else the schema holds; with a class name, an
    error of the pattern-schema pass is the one returned, and the
    action-schema pass decides only when the pattern-schema pass found
    nothing. *)
Theorem C8_fail_fast_order ro rs isWF :
  (RuleSchema.class rs = "" →
   verifyRuleSchema ro rs isWF = (false, Some "schema class is empty string"))
  ∧ (RuleSchema.class rs ≠ "" →
     ∀ err, verifyPatternSchema ro rs isWF = (false, Some err) →
            verifyRuleSchema ro rs isWF = (false, Some err))
  ∧ (RuleSchema.class rs ≠ "" →
     verifyPatternSchema ro rs isWF = (true, None) →
     verifyRuleSchema ro rs isWF = verifyActionSchema rs isWF).
Proof.
  unfold verifyRuleSchema. split_and!.
  - by intros ->.
  - intros Hclass err ->. by destruct (RuleSchema.class rs).
  - intros Hclass ->. destruct (RuleSchema.class rs); [done|]. simpl.
    by destruct (verifyActionSchema_outcome rs isWF) as [->|[err ->]].
Qed.

Lemma goIndex_list_to_map_true (keys : list string) k :
  goIndex (list_to_map ((λ key, (key, true)) <$> keys)) k = bool_decide (k ∈ keys).
Proof.
  unfold goIndex. induction keys as [|key keys IH].
  - by rewrite bool_decide_eq_false_2 by apply not_elem_of_nil.
  - rewrite fmap_cons, list_to_map_cons. destruct (decide (key = k)) as [->|Hne].
    + rewrite lookup_insert_eq. by rewrite bool_decide_eq_true_2 by left.
    + rewrite lookup_insert_ne by done. rewrite IH.
      apply bool_decide_ext. rewrite elem_of_cons. naive_solver.
Qed.

Lemma validTypes_spec t :
  goIndex validTypes t =
    bool_decide (t ∈ [typeBool; typeInt; typeFloat; typeStr; typeEnum; typeTS]).
Proof. apply (goIndex_list_to_map_true [_; _; _; _; _; _]). Qed.

Lemma validOps_spec o :
  goIndex validOps o = bool_decide (o ∈ [opEQ; opNE; opLT; opLE; opGT; opGE]).
Proof. apply (goIndex_list_to_map_true [_; _; _; _; _; _]). Qed.

Lemma twiceDeclaredSchema_accepted ro :
  verifyRuleSchema ro twiceDeclaredSchema false = (true, None).
Proof.
  apply verifyRuleSchema_accepted. split_and!; [done| |by vm_compute].
  unfold verifyPatternSchema, twiceDeclaredSchema. cbn -[validTypes].
  rewrite !validTypes_spec.
  rewrite !bool_decide_eq_true_2 by (rewrite !elem_of_cons; tauto).
  rewrite map_size_singleton, !andb_false_r.
  rewrite rangeOf_singleton. cbn. reflexivity.
Qed.

(** C10: a pattern-schema that declares the same attribute name twice is
    accepted ([twiceDeclaredSchema], in every run), and [getType] answers
    for a name with the type of its first declaration, whatever is declared
    for it further on. *)
Theorem C10_duplicate_names_first_type_wins :
  (∃ a1 a2, RuleSchema.patternSchema twiceDeclaredSchema = [a1; a2]
            ∧ AttrSchema.name a1 = AttrSchema.name a2
            ∧ (∀ ro, verifyRuleSchema ro twiceDeclaredSchema false = (true, None))
            ∧ getType twiceDeclaredSchema (AttrSchema.name a2) = AttrSchema.valType a1)
  ∧ (∀ rs pre a post,
       RuleSchema.patternSchema rs = (pre ++ a :: post)%list →
       AttrSchema.name a ∉ AttrSchema.name <$> pre →
       getType rs (AttrSchema.name a) = AttrSchema.valType a).
Proof.
  split.
  - eexists _, _. split_and!; [done | done | apply twiceDeclaredSchema_accepted | done].
  - intros rs pre a post Hps Hfirst. unfold getType. rewrite Hps.
    by apply getTypeIn_first.
Qed.

End SchemaTheorems.

(** C3 as stated fails: each schema below agrees with its tasks in
    membership (the first when the legal values are the ones mapped to
    [true], the second when they are all the keys), passes the
    pattern-schema pass, and does not pass the cross-check. *)
Lemma C3_false_entry_fails_cross_check :
  (legalStepValues falseExtraSchema = tasksWithStart falseExtraSchema
   ∧ verifyPatternSchema forwardOrder falseExtraSchema true = (true, None)
   ∧ verifyRuleSchema forwardOrder falseExtraSchema true =
       (false, Some "action-schema tasks for order are not the same as valid values for 'step' in pattern-schema"))
  ∧ (declaredStepValues falseTaskSchema = tasksWithStart falseTaskSchema
     ∧ verifyPatternSchema forwardOrder falseTaskSchema true = (true, None)
     ∧ verifyRuleSchema forwardOrder falseTaskSchema true =
         (false, Some "action-schema tasks for order are not the same as valid values for 'step' in pattern-schema")).
Proof. split_and!; by vm_compute. Qed.

(** ** Referential checks *)

Section Referential.
Context `{D : Decls}.

Lemma firstReturn_flat_map {A B R : Type} (f : A → list B) (g : B → option R) l :
  firstReturn (λ x, firstReturn g (f x)) l = firstReturn g (flat_map f l).
Proof.
  induction l as [|x l IH]; simpl; [done|]. rewrite IH. clear IH.
  induction (f x) as [|y ys IHy]; simpl; [done|]. by destruct (g y).
Qed.

Lemma firstReturn_find {A R : Type} (p : A → bool) (h : A → R) l :
  firstReturn (λ x, if p x then Some (h x) else None) l = h <$> find p l.
Proof. induction l as [|x l IH]; simpl; [done|]. by destruct (p x). Qed.

Lemma doesRuleSetExist_unresolved ruleSets name :
  doesRuleSetExist ruleSets name =
    if unresolved ruleSets name
    then (false, Some ("ruleset " ++ name ++ " does not exist"))
    else (true, None).
Proof.
  unfold doesRuleSetExist, unresolved. destruct name as [|c name]; simpl; [done|].
  destruct (ruleSets !! String c name); [done|].
  by rewrite bool_decide_eq_true_2.
Qed.

Lemma checkRuleCalls_callsOf ruleSets r :
  checkRuleCalls ruleSets r =
    firstReturn (λ name, if unresolved ruleSets name
                         then Some (false, Some ("ruleset " ++ name ++ " does not exist"))
                         else None) (callsOf r).
Proof.
  unfold checkRuleCalls, callsOf. simpl. rewrite !doesRuleSetExist_unresolved.
  by repeat destruct (unresolved _ _).
Qed.

(** [doReferentialChecks] stops at the first name, in the order of the run,
    that does not resolve. *)
Lemma doReferentialChecks_find ro ruleSets :
  doReferentialChecks ro ruleSets =
    match find (unresolved ruleSets) (callsInOrder ro ruleSets) with
    | Some name => (false, Some ("ruleset " ++ name ++ " does not exist"))
    | None => (true, None)
    end.
Proof.
  unfold doReferentialChecks.
  set (check := λ name : string,
         if unresolved ruleSets name
         then Some (false, Some ("ruleset " ++ name ++ " does not exist"))
         else None : option Result).
  assert (firstReturn (λ entry : string * RuleSet,
            firstReturn (checkRuleCalls ruleSets) (RuleSet.rules entry.2))
            (rangeOf ro ruleSets)
          = firstReturn check (callsInOrder ro ruleSets)) as ->.
  { unfold callsInOrder. rewrite <- firstReturn_flat_map.
    apply firstReturn_ext. intros entry. rewrite <- firstReturn_flat_map.
    apply firstReturn_ext. intros r. apply checkRuleCalls_callsOf. }
  unfold check. rewrite firstReturn_find. by destruct (find _ _).
Qed.

Lemma unresolved_false ruleSets name :
  unresolved ruleSets name = false ↔ resolves ruleSets name.
Proof.
  unfold unresolved, resolves. destruct (String.eqb_spec name "") as [->|Hne]; simpl.
  - split; [by left | done].
  - rewrite bool_decide_eq_false, <- not_eq_None_Some. split; [by right | by intros [|]].
Qed.

Lemma elem_of_callsInOrder ro ruleSets name :
  In name (callsInOrder ro ruleSets) ↔
  ∃ key rs rule, ruleSets !! key = Some rs ∧ rule ∈ RuleSet.rules rs
                 ∧ In name (callsOf rule).
Proof.
  unfold callsInOrder. rewrite in_flat_map. split.
  - intros ([key rs] & Hentry & Hin). simpl in Hin.
    apply in_flat_map in Hin as (rule & Hrule & Hname).
    exists key, rs, rule. split_and!; [|by apply list_elem_of_In|done].
    by apply list_elem_of_In, elem_of_rangeOf in Hentry.
  - intros (key & rs & rule & Hkey & Hrule & Hname). exists (key, rs). split.
    + by apply list_elem_of_In, elem_of_rangeOf.
    + simpl. apply in_flat_map. exists rule. split; [by apply list_elem_of_In|done].
Qed.

Lemma doReferentialChecks_accepted ro ruleSets :
  doReferentialChecks ro ruleSets = (true, None) ↔
  ∀ key rs rule,
    ruleSets !! key = Some rs → rule ∈ RuleSet.rules rs →
    resolves ruleSets (RuleActions.thenCall (Rule.ruleActions rule))
    ∧ resolves ruleSets (RuleActions.elseCall (Rule.ruleActions rule)).
Proof.
  rewrite doReferentialChecks_find. split.
  - destruct (find _ _) eqn:Hfind; [discriminate|]. intros _ key rs rule Hkey Hrule.
    pose proof (find_none _ _ Hfind) as Hnone.
    split; apply unresolved_false, Hnone, elem_of_callsInOrder;
      exists key, rs, rule; (split_and!; [done..|]); simpl; auto.
  - intros Hall. destruct (find _ _) as [name|] eqn:Hfind; [|done].
    apply find_some in Hfind as [Hin Hun].
    apply elem_of_callsInOrder in Hin as (key & rs & rule & Hkey & Hrule & Hname).
    destruct (Hall key rs rule Hkey Hrule) as [Hthen Helse].
    apply unresolved_false in Hthen, Helse.
    destruct Hname as [<-|[<-|[]]]; congruence.
Qed.

Lemma doReferentialChecks_outcome ro ruleSets :
  accepted (doReferentialChecks ro ruleSets) ∨ rejected (doReferentialChecks ro ruleSets).
Proof.
  rewrite doReferentialChecks_find. unfold accepted, rejected.
  destruct (find _ _); [right; eauto | by left].
Qed.

(** C6: [doReferentialChecks] returns ok exactly when, for every rule of
    every registered rule set, [thenCall] and [elseCall] are each empty or a
    key of the registry; otherwise it returns [false] with the error that
    names the first name, in the order of the lookups, that is not empty and
    not registered. With [R1] calling an unregistered [R2] the error is
    "ruleset R2 does not exist". *)
Theorem C6_referential_checks ro ruleSets :
  (doReferentialChecks ro ruleSets = (true, None) ↔
   ∀ key rs rule,
     ruleSets !! key = Some rs → rule ∈ RuleSet.rules rs →
     resolves ruleSets (RuleActions.thenCall (Rule.ruleActions rule))
     ∧ resolves ruleSets (RuleActions.elseCall (Rule.ruleActions rule)))
  ∧ doReferentialChecks ro ruleSets =
      match find (unresolved ruleSets) (callsInOrder ro ruleSets) with
      | Some name => (false, Some ("ruleset " ++ name ++ " does not exist"))
      | None => (true, None)
      end
  ∧ doReferentialChecks ro danglingRegistry =
      (false, Some "ruleset R2 does not exist").
Proof.
  split_and!.
  - apply doReferentialChecks_accepted.
  - apply doReferentialChecks_find.
  - rewrite doReferentialChecks_find. unfold callsInOrder, danglingRegistry.
    rewrite rangeOf_singleton. by vm_compute.
Qed.

End Referential.

(** ** Entity verification *)

Section EntityClaims.
Context `{D : Decls}.
Context (convertEntityAttrVal : GoAny → string → GoAny * option string).

Lemma getSchema_outcome ruleSchemas class :
  (∃ rs, getSchema ruleSchemas class = (rs, None)
         ∧ rs ∈ ruleSchemas ∧ RuleSchema.class rs = class)
  ∨ ((getSchema ruleSchemas class).2 = Some ("no schema found for class " ++ class)
     ∧ ∀ rs, rs ∈ ruleSchemas → RuleSchema.class rs ≠ class).
Proof.
  induction ruleSchemas as [|s ruleSchemas IH]; simpl.
  - right. split; [done|]. intros rs Hrs. inversion Hrs.
  - destruct (String.eqb_spec class (RuleSchema.class s)) as [Heq|Hne].
    + left. exists s. split_and!; [done | left | done].
    + destruct IH as [(rs & Hget & Hin & Hclass)|[Herr Hnone]].
      * left. exists rs. split_and!; [done | by right | done].
      * right. split; [done|]. intros rs [->|Hrs]%elem_of_cons; [congruence | auto].
Qed.

(** A schema that [verifyRuleSchema] accepts declares every attribute with
    one of the value types; when the empty string is none of them, it is a
    typed schema. *)
Lemma patternSchemaLoop_valid ro class isWF attrs stepFound stepFailedFound flags :
  patternSchemaLoop ro class isWF attrs stepFound stepFailedFound = inr flags →
  ∀ a, a ∈ attrs → goIndex validTypes (AttrSchema.valType a) = true.
Proof.
  revert stepFound stepFailedFound.
  induction attrs as [|attr attrs IH]; intros stepFound stepFailedFound; simpl.
  - intros _ a Ha. inversion Ha.
  - destruct (negb (MatchString _)); [discriminate|].
    destruct (goIndex validTypes (AttrSchema.valType attr)) eqn:Hvalid;
      [|discriminate]. simpl.
    destruct (_ && (size _ =? 0)%nat); [discriminate|].
    destruct (firstReturn _ _); [discriminate|].
    destruct (isWF && _ && _); [discriminate|].
    intros Hrest a [->|Ha]%elem_of_cons; [done|]. by eapply IH.
Qed.

Lemma admitted_schema_typed ro rs isWF :
  goIndex validTypes "" = false →
  verifyRuleSchema ro rs isWF = (true, None) → typedSchema rs.
Proof.
  intros Hempty (_ & Hps & _)%verifyRuleSchema_accepted a Ha Htype.
  unfold verifyPatternSchema in Hps.
  destruct (length _ =? 0)%nat; [discriminate|].
  destruct (patternSchemaLoop _ _ _ _ _ _) as [err|flags] eqn:Hloop; [discriminate|].
  pose proof (patternSchemaLoop_valid _ _ _ _ _ _ _ Hloop a Ha) as Hvalid.
  congruence.
Qed.

Lemma getType_typed rs name :
  typedSchema rs → (getType rs name ≠ "" ↔ name ∈ attrNames rs).
Proof.
  unfold typedSchema, getType, attrNames. intros Htyped. split.
  - apply getTypeIn_declared.
  - induction (RuleSchema.patternSchema rs) as [|a attrs IH]; simpl.
    + intros H. inversion H.
    + destruct (String.eqb_spec (AttrSchema.name a) name) as [Heq|Hne].
      * intros _. apply Htyped. left.
      * intros [Heq|Hin]%elem_of_cons; [congruence|].
        apply IH; [|done]. intros a' Ha'. apply Htyped. by right.
Qed.

Lemma verifyEntityAttr_None rs name val :
  verifyEntityAttr convertEntityAttrVal rs (name, val) = None ↔
  getType rs name ≠ "" ∧ (convertEntityAttrVal val (getType rs name)).2 = None.
Proof.
  unfold verifyEntityAttr.
  destruct (String.eqb_spec (getType rs name) "") as [Heq|Hne].
  - split; [discriminate | by intros [? _]].
  - destruct (convertEntityAttrVal val (getType rs name)) as [v [e|]]; simpl.
    + split; [discriminate | by intros [_ ?]].
    + done.
Qed.

Lemma verifyEntity_outcome ro ruleSchemas e :
  accepted (verifyEntity convertEntityAttrVal ro ruleSchemas e)
  ∨ rejected (verifyEntity convertEntityAttrVal ro ruleSchemas e).
Proof.
  unfold verifyEntity, accepted, rejected.
  destruct (getSchema _ _) as [rs [err|]]; [right; eauto|].
  destruct (firstReturn _ _); [right; eauto|].
  destruct (negb _); [right; eauto | by left].
Qed.

(** What [verifyEntity] accepts, in terms of the entity and the registry
    alone. *)
Lemma verifyEntity_accepted ro ruleSchemas e :
  verifyEntity convertEntityAttrVal ro ruleSchemas e = (true, None) ↔
  ∃ rs, getSchema ruleSchemas (Entity.class e) = (rs, None)
        ∧ (∀ name val, Entity.attrs e !! name = Some val →
             getType rs name ≠ ""
             ∧ (convertEntityAttrVal val (getType rs name)).2 = None)
        ∧ size (Entity.attrs e) = length (RuleSchema.patternSchema rs).
Proof.
  unfold verifyEntity.
  destruct (getSchema ruleSchemas (Entity.class e)) as [rs [err|]] eqn:Hget.
  { split; [discriminate | by intros (rs' & [=] & _)]. }
  assert (firstReturn (verifyEntityAttr convertEntityAttrVal rs)
            (rangeOf ro (Entity.attrs e)) = None ↔
          ∀ name val, Entity.attrs e !! name = Some val →
            getType rs name ≠ ""
            ∧ (convertEntityAttrVal val (getType rs name)).2 = None) as Hloop.
  { rewrite firstReturn_None. split.
    - intros H name val Hattr. apply verifyEntityAttr_None, H.
      by apply elem_of_rangeOf.
    - intros H [name val] Hin%elem_of_rangeOf. apply verifyEntityAttr_None. auto. }
  destruct (firstReturn _ _) as [err|].
  { split; [discriminate|]. intros (rs' & [= <-] & Hattrs & _).
    by apply Hloop in Hattrs. }
  destruct (Nat.eqb_spec (size (Entity.attrs e)) (length (RuleSchema.patternSchema rs)))
    as [Heq|Hne]; simpl.
  - split; [|done]. intros _. exists rs. split_and!; [done| |done].
    by apply Hloop.
  - split; [discriminate|]. by intros (rs' & [= <-] & _ & Hsize).
Qed.

Lemma size_list_to_set_le (l : list string) :
  (size (list_to_set l : gset string) ≤ length l)%nat.
Proof.
  induction l as [|x l IH].
  - done.
  - rewrite list_to_set_cons, size_union_alt, size_singleton. simpl.
    assert (list_to_set l ∖ {[x]} ⊆ (list_to_set l : gset string)) as Hsub
      by set_solver.
    apply subseteq_size in Hsub. lia.
Qed.

(** C5: [verifyEntity] returns ok exactly when [getSchema] finds a schema
    for the entity's class, every attribute of the entity is declared in its
    pattern-schema with a value that converts to the declared type, and the
    entity has as many attributes as the pattern-schema. A schema is found
    exactly when the registry holds one of the class. An entity whose
    attributes are a strict subset of the declared names is rejected, and so
    is one with an attribute that is not declared. [getType] answers the
    empty string for a name that is not declared, so the empty string must
    not pass for a declared type: either the schemas of the registry declare
    every attribute with a type, as admitted schemas do, or no value
    converts to the empty type. *)
Theorem C5_entity_matches_schema ro ruleSchemas e :
  (∀ rs, rs ∈ ruleSchemas → typedSchema rs)
  ∨ (∀ val, (convertEntityAttrVal val "").2 ≠ None) →
  (verifyEntity convertEntityAttrVal ro ruleSchemas e = (true, None) ↔
   ∃ rs, getSchema ruleSchemas (Entity.class e) = (rs, None)
         ∧ (∀ name val, Entity.attrs e !! name = Some val →
              name ∈ attrNames rs
              ∧ (convertEntityAttrVal val (getType rs name)).2 = None)
         ∧ size (Entity.attrs e) = length (RuleSchema.patternSchema rs))
  ∧ ((∃ rs, getSchema ruleSchemas (Entity.class e) = (rs, None)) ↔
     ∃ rs, rs ∈ ruleSchemas ∧ RuleSchema.class rs = Entity.class e)
  ∧ (∀ rs, getSchema ruleSchemas (Entity.class e) = (rs, None) →
       dom (Entity.attrs e) ⊂ list_to_set (attrNames rs) →
       rejected (verifyEntity convertEntityAttrVal ro ruleSchemas e))
  ∧ (∀ rs name, getSchema ruleSchemas (Entity.class e) = (rs, None) →
       is_Some (Entity.attrs e !! name) → name ∉ attrNames rs →
       rejected (verifyEntity convertEntityAttrVal ro ruleSchemas e)).
Proof.
  intros Htyped.
  assert (∀ rs name val,
            getSchema ruleSchemas (Entity.class e) = (rs, None) →
            (convertEntityAttrVal val (getType rs name)).2 = None →
            (getType rs name ≠ "" ↔ name ∈ attrNames rs)) as Hfound.
  { intros rs name val Hget Hconv. destruct Htyped as [Htyped|Hnever].
    - apply getType_typed.
      destruct (getSchema_outcome ruleSchemas (Entity.class e))
        as [(rs' & Hget' & Hin & _)|[Herr _]].
      + apply Htyped. congruence.
      + rewrite Hget in Herr. discriminate.
    - split; [apply getTypeIn_declared|].
      intros _ Hempty. rewrite Hempty in Hconv. by destruct (Hnever val). }
  assert (∀ P : Prop, ¬ P → (accepted (verifyEntity convertEntityAttrVal ro ruleSchemas e) → P) →
            rejected (verifyEntity convertEntityAttrVal ro ruleSchemas e)) as Hrej.
  { intros P HnP HP. destruct (verifyEntity_outcome ro ruleSchemas e); tauto. }
  split_and!.
  - rewrite verifyEntity_accepted. split.
    + intros (rs & Hget & Hattrs & Hsize). exists rs. split_and!; [done| |done].
      intros name val Hattr. destruct (Hattrs name val Hattr) as [Hty Hconv].
      split; [|done]. by apply (Hfound rs name val).
    + intros (rs & Hget & Hattrs & Hsize). exists rs. split_and!; [done| |done].
      intros name val Hattr. destruct (Hattrs name val Hattr) as [Hty Hconv].
      split; [|done]. by apply (Hfound rs name val).
  - destruct (getSchema_outcome ruleSchemas (Entity.class e))
      as [(rs & Hget & Hin & Hclass)|[Herr Hnone]].
    + split; eauto.
    + split.
      * intros [rs Hget]. rewrite Hget in Herr. discriminate.
      * intros (rs & Hin & Hclass). by destruct (Hnone rs Hin).
  - intros rs Hget Hsub.
    apply (Hrej (size (Entity.attrs e) = length (RuleSchema.patternSchema rs))).
    + apply subset_size in Hsub. rewrite size_dom in Hsub.
      pose proof (size_list_to_set_le (attrNames rs)) as Hle.
      unfold attrNames in Hle, Hsub. rewrite length_fmap in Hle. lia.
    + intros (rs' & Hget' & _ & Hsize)%verifyEntity_accepted. congruence.
  - intros rs name Hget [val Hattr] Habs.
    apply (Hrej (getType rs name ≠ "")).
    + intros Hty. by apply Hty, getType_absent.
    + intros (rs' & Hget' & Hattrs & _)%verifyEntity_accepted.
      assert (rs' = rs) as -> by congruence. by destruct (Hattrs name val Hattr).
Qed.

End EntityClaims.

Lemma C5_entity_matches_schema_witness :
  (∃ rs, getSchema [orderSchema] "order" = (rs, None)
         ∧ (∀ name val, Entity.attrs fullEntity !! name = Some val →
              name ∈ attrNames rs ∧ (specConvert val (getType rs name)).2 = None)
         ∧ size (Entity.attrs fullEntity) = length (RuleSchema.patternSchema rs))
  ∧ rejected (verifyEntity specConvert forwardOrder [orderSchema] partialEntity)
  ∧ rejected (verifyEntity specConvert forwardOrder [orderSchema] extraEntity).
Proof.
  assert ((∀ rs, rs ∈ [orderSchema] → typedSchema rs)
          ∨ (∀ val, (specConvert val "").2 ≠ None)) as Htyped.
  { left. intros rs Hrs a Ha. apply list_elem_of_singleton in Hrs. subst rs.
    simpl in Ha. apply elem_of_cons in Ha as [->|Ha]; [discriminate|].
    apply list_elem_of_singleton in Ha. subst a. discriminate. }
  split_and!.
  - apply (C5_entity_matches_schema specConvert forwardOrder [orderSchema]
             fullEntity Htyped).
    vm_compute. reflexivity.
  - destruct (C5_entity_matches_schema specConvert forwardOrder [orderSchema]
                partialEntity Htyped) as (_ & _ & Hpartial & _).
    apply (Hpartial orderSchema); [vm_compute; reflexivity|].
    simpl. rewrite dom_singleton_L. set_solver.
  - destruct (C5_entity_matches_schema specConvert forwardOrder [orderSchema]
                extraEntity Htyped) as (_ & _ & _ & Hextra).
    apply (Hextra orderSchema "colour"); [vm_compute; reflexivity | by eexists |].
    vm_compute. intros H. repeat (apply elem_of_cons in H as [H|H]; [discriminate H|]).
    inversion H.
Defined.

(** ** Runs that enumerate maps in different orders *)

Section Runs.
Context `{D : Decls}.
Implicit Types ro : RangeOrder.

Lemma verifyRuleSet_outcome ro ruleSchemas rs isWF :
  accepted (verifyRuleSet ro ruleSchemas rs isWF)
  ∨ rejected (verifyRuleSet ro ruleSchemas rs isWF).
Proof.
  unfold verifyRuleSet.
  destruct (getSchema _ _) as [schema [err|]]; [right; by eexists|].
  destruct (verifyRulePatterns_outcome rs schema isWF) as [->|[err ->]];
    [|right; by eexists].
  destruct (verifyRuleActions_outcome ro rs schema isWF) as [->|[err ->]];
    [by left | right; by eexists].
Qed.

Lemma sameVerdict_agreeUpTo {M : Type} (maps : M → Prop) kind (r1 r2 : Result) :
  accepted r1 ∨ rejected r1 → agreeUpTo maps kind r1 r2 → sameVerdict r1 r2.
Proof.
  unfold sameVerdict, agreeUpTo, accepted, rejected.
  intros Hout [<-|(m & e1 & e2 & _ & _ & _ & -> & ->)]; [tauto|].
  right. split; by eexists.
Qed.

Lemma patternSchemaLoop_runs ro1 ro2 class isWF attrs stepFound stepFailedFound :
  patternSchemaLoop ro1 class isWF attrs stepFound stepFailedFound
  = patternSchemaLoop ro2 class isWF attrs stepFound stepFailedFound
  ∨ ∃ attr val1 b1 val2 b2 err1 err2,
      attr ∈ attrs
      ∧ AttrSchema.vals attr !! val1 = Some b1 ∧ verifyEnumVal (val1, b1) = Some err1
      ∧ AttrSchema.vals attr !! val2 = Some b2 ∧ verifyEnumVal (val2, b2) = Some err2
      ∧ patternSchemaLoop ro1 class isWF attrs stepFound stepFailedFound = inl err1
      ∧ patternSchemaLoop ro2 class isWF attrs stepFound stepFailedFound = inl err2.
Proof.
  revert stepFound stepFailedFound.
  induction attrs as [|attr attrs IH]; intros stepFound stepFailedFound; simpl;
    [by left|].
  destruct (negb (MatchString _)); [by left|].
  destruct (negb (goIndex _ _)); [by left|].
  destruct (_ && (size _ =? 0)%nat); [by left|].
  destruct (firstReturn_perm verifyEnumVal _ _
              (rangeOf_perm2 ro1 ro2 (AttrSchema.vals attr)))
    as [[-> ->]|([val1 b1] & [val2 b2] & err1 & err2 & H1 & H2 & Hb1 & Hb2 & -> & ->)].
  - destruct (isWF && _ && _); [by left|].
    destruct (IH (if String.eqb (AttrSchema.name attr) step
                     && String.eqb (AttrSchema.valType attr) typeEnum
                  then true else stepFound)
                 (if String.eqb (AttrSchema.name attr) stepFailed
                     && String.eqb (AttrSchema.valType attr) typeBool
                  then true else stepFailedFound))
      as [Heq|(a & v1 & c1 & v2 & c2 & e1 & e2 & Ha & Hrest)]; [by left|].
    right. exists a, v1, c1, v2, c2, e1, e2. split; [by right | done].
  - right. exists attr, val1, b1, val2, b2, err1, err2.
    apply elem_of_rangeOf in H1, H2. split_and!; (done || left).
Qed.

Lemma verifyRuleSchema_runs ro1 ro2 rs isWF :
  agreeUpTo (λ vals, ∃ attr, attr ∈ RuleSchema.patternSchema rs
                              ∧ AttrSchema.vals attr = vals)
    enumValueError
    (verifyRuleSchema ro1 rs isWF) (verifyRuleSchema ro2 rs isWF).
Proof.
  unfold agreeUpTo, enumValueError, verifyRuleSchema, verifyPatternSchema.
  destruct (String.length _ =? 0)%nat; [by left|].
  destruct (length _ =? 0)%nat; [by left|].
  destruct (patternSchemaLoop_runs ro1 ro2 (RuleSchema.class rs) isWF
              (RuleSchema.patternSchema rs) false false)
    as [->|(a & v1 & c1 & v2 & c2 & e1 & e2 & Ha & Hv1 & He1 & Hv2 & He2 & -> & ->)];
    [by left|].
  right. exists (AttrSchema.vals a), e1, e2. split_and!; [| | |done..].
  - by exists a.
  - by exists v1, c1.
  - by exists v2, c2.
Qed.

Lemma verifyRuleAction_runs ro1 ro2 setName schema isWF rule :
  verifyRuleAction ro1 setName schema isWF rule
  = verifyRuleAction ro2 setName schema isWF rule
  ∨ ∃ entry1 entry2 err1 err2,
      RuleActions.properties (Rule.ruleActions rule) !! entry1.1 = Some entry1.2
      ∧ verifyRuleProp (RuleSchema.actionSchema schema) entry1 = Some err1
      ∧ RuleActions.properties (Rule.ruleActions rule) !! entry2.1 = Some entry2.2
      ∧ verifyRuleProp (RuleSchema.actionSchema schema) entry2 = Some err2
      ∧ verifyRuleAction ro1 setName schema isWF rule = Some err1
      ∧ verifyRuleAction ro2 setName schema isWF rule = Some err2.
Proof.
  unfold verifyRuleAction.
  destruct (firstReturn (verifyRuleTask _) _); [by left|].
  destruct (firstReturn_perm (verifyRuleProp (RuleSchema.actionSchema schema)) _ _
              (rangeOf_perm2 ro1 ro2 (RuleActions.properties (Rule.ruleActions rule))))
    as [[-> ->]|([p1 v1] & [p2 v2] & err1 & err2 & H1 & H2 & Hb1 & Hb2 & -> & ->)].
  - left. by rewrite !areNextStepAndDoneInProps_lookup, !getNextStep_lookup.
  - right. exists (p1, v1), (p2, v2), err1, err2.
    apply elem_of_rangeOf in H1, H2. by split_and!.
Qed.

Lemma verifyRuleActions_runs ro1 ro2 ruleSet schema isWF :
  verifyRuleActions ro1 ruleSet schema isWF = verifyRuleActions ro2 ruleSet schema isWF
  ∨ ∃ rule entry1 entry2 err1 err2,
      rule ∈ RuleSet.rules ruleSet
      ∧ RuleActions.properties (Rule.ruleActions rule) !! entry1.1 = Some entry1.2
      ∧ verifyRuleProp (RuleSchema.actionSchema schema) entry1 = Some err1
      ∧ RuleActions.properties (Rule.ruleActions rule) !! entry2.1 = Some entry2.2
      ∧ verifyRuleProp (RuleSchema.actionSchema schema) entry2 = Some err2
      ∧ verifyRuleActions ro1 ruleSet schema isWF = (false, Some err1)
      ∧ verifyRuleActions ro2 ruleSet schema isWF = (false, Some err2).
Proof.
  unfold verifyRuleActions.
  induction (RuleSet.rules ruleSet) as [|rule rules IH]; simpl; [by left|].
  destruct (verifyRuleAction_runs ro1 ro2 (RuleSet.setName ruleSet) schema isWF rule)
    as [->|(en1 & en2 & e1 & e2 & Hp1 & Hb1 & Hp2 & Hb2 & -> & ->)].
  - destruct (verifyRuleAction ro2 _ _ _ rule); [by left|].
    destruct IH as [IH|(r & en1 & en2 & e1 & e2 & Hr & Hrest)]; [by left|].
    right. exists r, en1, en2, e1, e2. split; [by right | done].
  - right. exists rule, en1, en2, e1, e2. split_and!; (done || left).
Qed.

Lemma verifyRuleSet_runs ro1 ro2 ruleSchemas rs isWF :
  agreeUpTo (λ properties, ∃ rule, rule ∈ RuleSet.rules rs
                                    ∧ RuleActions.properties (Rule.ruleActions rule)
                                      = properties)
    (propertyError
       (RuleSchema.actionSchema (getSchema ruleSchemas (RuleSet.class rs)).1))
    (verifyRuleSet ro1 ruleSchemas rs isWF) (verifyRuleSet ro2 ruleSchemas rs isWF).
Proof.
  unfold agreeUpTo, propertyError, verifyRuleSet.
  destruct (getSchema ruleSchemas (RuleSet.class rs)) as [schema [err|]]; [by left|].
  destruct (verifyRulePatterns rs schema isWF) as [ok [err|]]; [by left|].
  destruct (verifyRuleActions_runs ro1 ro2 rs schema isWF)
    as [->|(r & [p1 v1] & [p2 v2] & e1 & e2 & Hr & Hp1 & Hb1 & Hp2 & Hb2 & -> & ->)];
    [by left|].
  right. exists (RuleActions.properties (Rule.ruleActions r)), e1, e2.
  split_and!; [| | |done..].
  - by exists r.
  - by exists p1, v1.
  - by exists p2, v2.
Qed.

Lemma doReferentialChecks_error ro ruleSets err :
  doReferentialChecks ro ruleSets = (false, Some err) → callError ruleSets err.
Proof.
  rewrite doReferentialChecks_find.
  destruct (find _ _) as [name|] eqn:Hfind; [|discriminate]. intros [= <-].
  apply find_some in Hfind as [Hin Hun].
  apply elem_of_callsInOrder in Hin as (key & rs & rule & Hkey & Hrule & Hname).
  exists key, rs, rule, name. split_and!; try done. by apply list_elem_of_In.
Qed.

Lemma doReferentialChecks_runs ro1 ro2 ruleSets :
  agreeUpTo (λ sets, sets = ruleSets) callError
    (doReferentialChecks ro1 ruleSets) (doReferentialChecks ro2 ruleSets).
Proof.
  destruct (doReferentialChecks_outcome ro1 ruleSets) as [H1|[e1 H1]];
    destruct (doReferentialChecks_outcome ro2 ruleSets) as [H2|[e2 H2]];
    unfold accepted in *.
  - left. congruence.
  - pose proof (proj2 (doReferentialChecks_accepted ro2 ruleSets)
                  (proj1 (doReferentialChecks_accepted ro1 ruleSets) H1)).
    congruence.
  - pose proof (proj2 (doReferentialChecks_accepted ro1 ruleSets)
                  (proj1 (doReferentialChecks_accepted ro2 ruleSets) H2)).
    congruence.
  - right. exists ruleSets, e1, e2.
    split_and!; [done | by eapply doReferentialChecks_error.. | done | done].
Qed.

Lemma verifyEntity_runs convertEntityAttrVal ro1 ro2 ruleSchemas e :
  agreeUpTo (λ attrs, attrs = Entity.attrs e)
    (attributeError convertEntityAttrVal
       (getSchema ruleSchemas (Entity.class e)).1)
    (verifyEntity convertEntityAttrVal ro1 ruleSchemas e)
    (verifyEntity convertEntityAttrVal ro2 ruleSchemas e).
Proof.
  unfold agreeUpTo, attributeError, verifyEntity.
  destruct (getSchema ruleSchemas (Entity.class e)) as [rs [err|]]; [by left|].
  destruct (firstReturn_perm (verifyEntityAttr convertEntityAttrVal rs) _ _
              (rangeOf_perm2 ro1 ro2 (Entity.attrs e)))
    as [[-> ->]|([n1 v1] & [n2 v2] & e1 & e2 & H1 & H2 & Hb1 & Hb2 & -> & ->)];
    [by left|].
  right. exists (Entity.attrs e), e1, e2. apply elem_of_rangeOf in H1, H2.
  split_and!; [done | | |done..].
  - by exists n1, v1.
  - by exists n2, v2.
Qed.

(** The computations on the package's variables return the variables as
    they found them, with the result of the verifier on their content. *)
Lemma firstReturnGo_pure {A R : Type} (body : A → Go (option R))
    (pure : A → option R) (g : Globals.t) l :
  (∀ x, body x g = (pure x, g)) →
  firstReturnGo body l g = (firstReturn pure l, g).
Proof.
  intros Hbody. induction l as [|x l IH]; simpl; [done|].
  unfold bind. rewrite Hbody. by destruct (pure x).
Qed.

Lemma getSchemaGo_run class g :
  getSchemaGo class g = (getSchema (Globals.ruleSchemas g) class, g).
Proof. done. Qed.

Lemma verifyRuleSetGo_run ro rs isWF g :
  verifyRuleSetGo ro rs isWF g
  = (verifyRuleSet ro (Globals.ruleSchemas g) rs isWF, g).
Proof.
  unfold verifyRuleSetGo, verifyRuleSet, bind. rewrite getSchemaGo_run.
  destruct (getSchema _ _) as [schema [err|]]; [done|].
  destruct (verifyRulePatterns rs schema isWF) as [ok [err|]]; [done|].
  by destruct (verifyRuleActions ro rs schema isWF) as [ok' [err|]].
Qed.

Lemma doesRuleSetExistGo_run name g :
  doesRuleSetExistGo name g = (doesRuleSetExist (Globals.ruleSets g) name, g).
Proof.
  unfold doesRuleSetExistGo, doesRuleSetExist, bind, readRuleSets.
  destruct (String.length name =? 0)%nat; [done|].
  by destruct (Globals.ruleSets g !! name).
Qed.

Lemma checkRuleCallsGo_run r g :
  checkRuleCallsGo r g = (checkRuleCalls (Globals.ruleSets g) r, g).
Proof.
  unfold checkRuleCallsGo, checkRuleCalls, bind.
  rewrite doesRuleSetExistGo_run.
  destruct (doesRuleSetExist _ _) as [ok err]. destruct ok; simpl; [|done].
  rewrite doesRuleSetExistGo_run.
  destruct (doesRuleSetExist _ _) as [ok err']. by destruct ok.
Qed.

Lemma doReferentialChecksGo_run ro g :
  doReferentialChecksGo ro g = (doReferentialChecks ro (Globals.ruleSets g), g).
Proof.
  unfold doReferentialChecksGo, doReferentialChecks, bind, readRuleSets.
  rewrite (firstReturnGo_pure _
             (λ entry : string * RuleSet,
                firstReturn (checkRuleCalls (Globals.ruleSets g))
                  (RuleSet.rules entry.2))).
  - by destruct (firstReturn _ _).
  - intros entry. apply firstReturnGo_pure. intros r. apply checkRuleCallsGo_run.
Qed.

Lemma verifyEntityGo_run convertEntityAttrVal ro e g :
  verifyEntityGo convertEntityAttrVal ro e g
  = (verifyEntity convertEntityAttrVal ro (Globals.ruleSchemas g) e, g).
Proof.
  unfold verifyEntityGo, verifyEntity, bind. rewrite getSchemaGo_run.
  destruct (getSchema _ _) as [rs [err|]]; [done|].
  destruct (firstReturn _ _); [done|]. by destruct (negb _).
Qed.

(** C9, as the code has it: the verdict of each verifier is a function of
    its input and of the registries it reads. Two runs of
    [verifyRuleSchema], of [verifyRuleSet], of [doReferentialChecks] or of
    [verifyEntity] on the same input both return [(true, nil)] or both
    return [false] with an error, in whatever order each run walks the maps.
    The two results are even equal, unless both are errors of the one loop
    of the verifier that ranges over a map and stops at the first violation:
    then both errors are for entries of one and the same map (the values of
    one attribute, the properties of one rule, the registry, the attributes
    of the entity), and not always for the same entry. No verifier changes
    the package's variables: run on [ruleSchemas] and [ruleSets],
    [verifyRuleSet], [doReferentialChecks] and [verifyEntity] leave both as
    they found them and return what they return on their content;
    [verifyRuleSchema] reads neither. *)
Theorem C9_same_verdict_in_every_run ro1 ro2 :
  (∀ rs isWF,
     sameVerdict (verifyRuleSchema ro1 rs isWF) (verifyRuleSchema ro2 rs isWF)
     ∧ agreeUpTo (λ vals, ∃ attr, attr ∈ RuleSchema.patternSchema rs
                                   ∧ AttrSchema.vals attr = vals)
         enumValueError
         (verifyRuleSchema ro1 rs isWF) (verifyRuleSchema ro2 rs isWF))
  ∧ (∀ ruleSchemas rs isWF,
       sameVerdict (verifyRuleSet ro1 ruleSchemas rs isWF)
                   (verifyRuleSet ro2 ruleSchemas rs isWF)
       ∧ agreeUpTo (λ properties,
                      ∃ rule, rule ∈ RuleSet.rules rs
                              ∧ RuleActions.properties (Rule.ruleActions rule)
                                = properties)
           (propertyError
              (RuleSchema.actionSchema (getSchema ruleSchemas (RuleSet.class rs)).1))
           (verifyRuleSet ro1 ruleSchemas rs isWF)
           (verifyRuleSet ro2 ruleSchemas rs isWF))
  ∧ (∀ ruleSets,
       sameVerdict (doReferentialChecks ro1 ruleSets)
                   (doReferentialChecks ro2 ruleSets)
       ∧ agreeUpTo (λ sets, sets = ruleSets) callError
           (doReferentialChecks ro1 ruleSets) (doReferentialChecks ro2 ruleSets))
  ∧ (∀ convertEntityAttrVal ruleSchemas e,
       sameVerdict (verifyEntity convertEntityAttrVal ro1 ruleSchemas e)
                   (verifyEntity convertEntityAttrVal ro2 ruleSchemas e)
       ∧ agreeUpTo (λ attrs, attrs = Entity.attrs e)
           (attributeError convertEntityAttrVal
              (getSchema ruleSchemas (Entity.class e)).1)
           (verifyEntity convertEntityAttrVal ro1 ruleSchemas e)
           (verifyEntity convertEntityAttrVal ro2 ruleSchemas e))
  ∧ (∀ g : Globals.t,
       (∀ rs isWF,
          verifyRuleSetGo ro1 rs isWF g
          = (verifyRuleSet ro1 (Globals.ruleSchemas g) rs isWF, g))
       ∧ doReferentialChecksGo ro1 g
         = (doReferentialChecks ro1 (Globals.ruleSets g), g)
       ∧ (∀ convertEntityAttrVal e,
            verifyEntityGo convertEntityAttrVal ro1 e g
            = (verifyEntity convertEntityAttrVal ro1 (Globals.ruleSchemas g) e, g))).
Proof.
  split_and!.
  - intros rs isWF. pose proof (verifyRuleSchema_runs ro1 ro2 rs isWF) as Hruns.
    split; [|done].
    eapply sameVerdict_agreeUpTo; [apply verifyRuleSchema_outcome | done].
  - intros ruleSchemas rs isWF.
    pose proof (verifyRuleSet_runs ro1 ro2 ruleSchemas rs isWF) as Hruns.
    split; [|done].
    eapply sameVerdict_agreeUpTo; [apply verifyRuleSet_outcome | done].
  - intros ruleSets. pose proof (doReferentialChecks_runs ro1 ro2 ruleSets) as Hruns.
    split; [|done].
    eapply sameVerdict_agreeUpTo; [apply doReferentialChecks_outcome | done].
  - intros convertEntityAttrVal ruleSchemas e.
    pose proof (verifyEntity_runs convertEntityAttrVal ro1 ro2 ruleSchemas e) as Hruns.
    split; [|done].
    eapply sameVerdict_agreeUpTo; [apply verifyEntity_outcome | done].
  - intros g. split_and!.
    + intros rs isWF. apply verifyRuleSetGo_run.
    + apply doReferentialChecksGo_run.
    + intros convertEntityAttrVal e. apply verifyEntityGo_run.
Qed.

End Runs.

(** C9 as stated fails: on the same schema, a run that meets the enum value
    [Approve] first and a run that meets [Reject] first return different
    errors. *)
Lemma C9_error_depends_on_map_order :
  verifyRuleSchema forwardOrder twoBadValuesSchema true
    = (false, Some "enum value Approve is not a valid CruxID")
  ∧ verifyRuleSchema backwardOrder twoBadValuesSchema true
    = (false, Some "enum value Reject is not a valid CruxID")
  ∧ verifyRuleSchema forwardOrder twoBadValuesSchema true
    ≠ verifyRuleSchema backwardOrder twoBadValuesSchema true.
Proof. split_and!; by vm_compute. Qed.

Lemma C3_tasks_match_steps_witness :
  (tasksMatchSteps orderSchema = true
   ∧ legalStepValues orderSchema = tasksWithStart orderSchema
   ∧ declaredStepValues orderSchema = tasksWithStart orderSchema)
  ∧ (tasksMatchSteps falseExtraSchema = false
     ∧ rejected (verifyRuleSchema backwardOrder falseExtraSchema true)).
Proof.
  split.
  - destruct (C3_tasks_match_steps forwardOrder orderSchema) as (_ & Hok & _).
    apply Hok. vm_compute. reflexivity.
  - destruct (C3_tasks_match_steps backwardOrder falseExtraSchema) as (_ & _ & Hdiff & _).
    apply Hdiff. right.
    apply (bool_decide_eq_false_1
             (declaredStepValues falseExtraSchema = tasksWithStart falseExtraSchema)).
    vm_compute. reflexivity.
Defined.

Lemma C8_fail_fast_order_witness :
  verifyRuleSchema forwardOrder (RuleSchema.mk "" [] (ActionSchema.mk [] [])) true
    = (false, Some "schema class is empty string")
  ∧ verifyRuleSchema forwardOrder (RuleSchema.mk "order" [] (ActionSchema.mk [] [])) true
    = (false, Some "pattern-schema for order is empty")
  ∧ verifyRuleSchema forwardOrder orderSchema true = verifyActionSchema orderSchema true.
Proof.
  split_and!.
  - destruct (C8_fail_fast_order forwardOrder
                (RuleSchema.mk "" [] (ActionSchema.mk [] [])) true) as (Hclass & _).
    apply Hclass. reflexivity.
  - destruct (C8_fail_fast_order forwardOrder
                (RuleSchema.mk "order" [] (ActionSchema.mk [] [])) true)
      as (_ & Hpattern & _).
    apply Hpattern; [discriminate | vm_compute; reflexivity].
  - destruct (C8_fail_fast_order forwardOrder orderSchema true) as (_ & _ & Haction).
    apply Haction; [discriminate | vm_compute; reflexivity].
Defined.

Lemma C10_duplicate_names_first_type_wins_witness :
  getType twiceDeclaredSchema "x" = "enum".
Proof.
  destruct C10_duplicate_names_first_type_wins as (_ & Hfirst).
  apply (Hfirst twiceDeclaredSchema []
           (AttrSchema.mk "x" "enum" {[ "a" := true ]})
           [AttrSchema.mk "x" "bool" {[ "a" := true ]}]).
  - reflexivity.
  - simpl. apply not_elem_of_nil.
Defined.

Lemma C2_neither_error_iff_no_nextstep_and_no_done_true_witness :
  actionsDeclared orderSchema doneFalseRule
  ∧ RuleActions.properties (Rule.ruleActions doneFalseRule) !! nextStep = None
  ∧ RuleActions.properties (Rule.ruleActions doneFalseRule) !! done ≠ Some "true".
Proof.
  destruct (C2_neither_error_iff_no_nextstep_and_no_done_true forwardOrder
              (RuleSet.mk "order" "approval" [doneFalseRule]) orderSchema)
    as (Hbody & _).
  apply (Hbody doneFalseRule). vm_compute. reflexivity.
Defined.

Lemma C6_referential_checks_witness :
  resolves closedRegistry "R2" ∧ resolves closedRegistry "".
Proof.
  destruct (C6_referential_checks forwardOrder closedRegistry) as ([Hok _] & _).
  apply (Hok ltac:(vm_compute; reflexivity) "R1"
             (RuleSet.mk "order" "R1" [callingRule "R2"]) (callingRule "R2")).
  - vm_compute. reflexivity.
  - left.
Defined.

(** ** Properties beyond the specification's claims *)

(** *** Schemas *)

Section SchemaProperties.
Context `{D : Decls}.

Lemma verifyEnumVals_None ro (vals : gmap string bool) :
  firstReturn verifyEnumVal (rangeOf ro vals) = None ↔
  ∀ val, is_Some (vals !! val) → MatchString val = true ∨ val = start.
Proof.
  rewrite firstReturn_None. unfold verifyEnumVal. split.
  - intros H val [b Hval]. specialize (H (val, b)). simpl in H.
    destruct (MatchString val); [by left|]. right.
    destruct (String.eqb_spec val start); [done|].
    discriminate H. by apply elem_of_rangeOf.
  - intros H [val b] Hin%elem_of_rangeOf. simpl.
    destruct (H val) as [->| ->]; [by eexists | done |].
    by rewrite String.eqb_refl, andb_false_r.
Qed.

(** One turn of the loop of [verifyPatternSchema]: it goes on to the next
    attribute exactly when the attribute is well formed and, in a workflow
    schema, has [START] among its values if it is named [step]. *)
Lemma patternSchemaLoop_cons_inr ro class isWF attr attrs stepFound stepFailedFound flags :
  patternSchemaLoop ro class isWF (attr :: attrs) stepFound stepFailedFound = inr flags ↔
  (attrWellFormed attr
   ∧ (isWF = true → AttrSchema.name attr = step →
      goIndex (AttrSchema.vals attr) start = true))
  ∧ patternSchemaLoop ro class isWF attrs
      (if String.eqb (AttrSchema.name attr) step
          && String.eqb (AttrSchema.valType attr) typeEnum
       then true else stepFound)
      (if String.eqb (AttrSchema.name attr) stepFailed
          && String.eqb (AttrSchema.valType attr) typeBool
       then true else stepFailedFound) = inr flags.
Proof.
  cbn [patternSchemaLoop]. cbv zeta. unfold attrWellFormed.
  rewrite <- (verifyEnumVals_None ro), <- map_size_non_empty_iff.
  destruct (MatchString (AttrSchema.name attr)); simpl;
    [|split; [discriminate | by intros [[(? & _) _] _]]].
  destruct (goIndex validTypes (AttrSchema.valType attr)); simpl;
    [|split; [discriminate | by intros [[(_ & ? & _) _] _]]].
  assert (String.eqb (AttrSchema.valType attr) typeEnum
          && (size (AttrSchema.vals attr) =? 0)%nat = false
          ↔ (AttrSchema.valType attr = typeEnum → size (AttrSchema.vals attr) ≠ 0))
    as Henum.
  { destruct (String.eqb_spec (AttrSchema.valType attr) typeEnum),
      (Nat.eqb_spec (size (AttrSchema.vals attr)) 0); simpl; naive_solver. }
  destruct (_ && (size _ =? 0)%nat).
  { split; [discriminate|]. intros [[(_ & _ & Hne & _) _] _].
    apply Henum in Hne. discriminate. }
  destruct (firstReturn verifyEnumVal _).
  { split; [discriminate | by intros [[(_ & _ & _ & ?) _] _]]. }
  assert (isWF && String.eqb (AttrSchema.name attr) step
          && negb (goIndex (AttrSchema.vals attr) start) = false
          ↔ (isWF = true → AttrSchema.name attr = step →
             goIndex (AttrSchema.vals attr) start = true)) as Hstart.
  { destruct isWF, (String.eqb_spec (AttrSchema.name attr) step),
      (goIndex (AttrSchema.vals attr) start); simpl; naive_solver. }
  destruct (isWF && _ && negb _).
  { split; [discriminate|]. intros [[_ Hs] _]. apply Hstart in Hs. discriminate. }
  split.
  - intros Hrest. split_and!; try done.
    + by apply Henum.
    + by apply Hstart.
  - by intros [_ Hrest].
Qed.

Lemma patternSchemaLoop_inr ro class isWF attrs stepFound stepFailedFound flags :
  patternSchemaLoop ro class isWF attrs stepFound stepFailedFound = inr flags ↔
  (∀ a, a ∈ attrs →
        attrWellFormed a
        ∧ (isWF = true → AttrSchema.name a = step →
           goIndex (AttrSchema.vals a) start = true))
  ∧ flags =
      (stepFound
       || existsb (λ a, String.eqb (AttrSchema.name a) step
                        && String.eqb (AttrSchema.valType a) typeEnum) attrs,
       stepFailedFound
       || existsb (λ a, String.eqb (AttrSchema.name a) stepFailed
                        && String.eqb (AttrSchema.valType a) typeBool) attrs).
Proof.
  revert stepFound stepFailedFound.
  induction attrs as [|attr attrs IH]; intros stepFound stepFailedFound.
  - cbn [patternSchemaLoop existsb]. rewrite !orb_false_r. split.
    + intros [= <-]. split; [|done]. intros a Ha. inversion Ha.
    + by intros [_ ->].
  - rewrite patternSchemaLoop_cons_inr, IH. cbn [existsb].
    assert (∀ c b e : bool, (if c then true else b) || e = b || (c || e)) as Hor
      by (by intros [] [] []).
    rewrite !Hor. split.
    + intros [Hattr [Hall ->]]. split; [|done].
      intros a [->|Ha]%elem_of_cons; auto.
    + intros [Hall ->]. split; [apply Hall; left|]. split; [|done].
      intros a Ha. apply Hall. by right.
Qed.

(** X1: [verifyPatternSchema] accepts a schema exactly when its
    pattern-schema is not empty, every attribute is well formed (name a
    CruxID, type one of the value types, values present for an enum, every
    value a CruxID or [START]) and, for a workflow, every attribute named
    [step] allows [START] and there are an enum [step] and a bool
    [stepfailed]; in whatever order the run walks the values. *)
Theorem X1_pattern_schema_accepted_iff ro rs isWF :
  verifyPatternSchema ro rs isWF = (true, None) ↔
  RuleSchema.patternSchema rs ≠ []
  ∧ (∀ a, a ∈ RuleSchema.patternSchema rs → attrWellFormed a)
  ∧ (isWF = true → workflowAttrs (RuleSchema.patternSchema rs)).
Proof.
  unfold verifyPatternSchema, workflowAttrs.
  destruct (RuleSchema.patternSchema rs) as [|attr attrs'] eqn:Hps;
    [split; [discriminate | by intros [? _]]|].
  cbn [length Nat.eqb]. rewrite <- Hps.
  assert (RuleSchema.patternSchema rs ≠ []) as Hne by (by rewrite Hps).
  clear Hps attr attrs'. set (attrs := RuleSchema.patternSchema rs) in *.
  assert (∀ name type,
            existsb (λ a, String.eqb (AttrSchema.name a) name
                          && String.eqb (AttrSchema.valType a) type) attrs = true
            ↔ ∃ a, a ∈ attrs ∧ AttrSchema.name a = name ∧ AttrSchema.valType a = type)
    as Hfound.
  { intros name type. rewrite existsb_exists. split.
    - intros (a & Ha & [?%String.eqb_eq ?%String.eqb_eq]%andb_true_iff).
      exists a. by rewrite list_elem_of_In.
    - intros (a & Ha & <- & <-). exists a. rewrite <- list_elem_of_In.
      by rewrite !String.eqb_refl. }
  destruct (patternSchemaLoop ro _ isWF attrs false false) as [err|[sf sff]] eqn:Hloop.
  { split; [discriminate|]. intros (_ & Hall & Hwf).
    assert (∃ flags, patternSchemaLoop ro (RuleSchema.class rs) isWF attrs false false
                     = inr flags) as [flags Hflags]; [|congruence].
    eexists. apply patternSchemaLoop_inr. split; [|done].
    intros a Ha. split; [auto|]. intros HisWF. destruct (Hwf HisWF) as (Hstart & _).
    auto. }
  apply patternSchemaLoop_inr in Hloop as [Hall [= -> ->]]. simpl.
  assert (∀ a, a ∈ attrs → attrWellFormed a) as Hwell
    by (intros a Ha; by apply Hall).
  destruct isWF; simpl; [|by split].
  assert (∀ a, a ∈ attrs → AttrSchema.name a = step →
               goIndex (AttrSchema.vals a) start = true) as Hstart
    by (intros a Ha; by apply Hall).
  pose proof (Hfound step typeEnum) as Hs.
  pose proof (Hfound stepFailed typeBool) as Hsf.
  destruct (existsb (λ a, String.eqb (AttrSchema.name a) step && _) attrs);
    destruct (existsb (λ a, String.eqb (AttrSchema.name a) stepFailed && _) attrs);
    simpl.
  - split; [|done]. intros _. split_and!; try done.
    intros _. split_and!; [done | by apply Hs | by apply Hsf].
  - split; [discriminate|]. intros (_ & _ & Hwf).
    destruct (Hwf eq_refl) as (_ & _ & Habs). apply Hsf in Habs. discriminate.
  - split; [discriminate|]. intros (_ & _ & Hwf).
    destruct (Hwf eq_refl) as (_ & Habs & _). apply Hs in Habs. discriminate.
  - split; [discriminate|]. intros (_ & _ & Hwf).
    destruct (Hwf eq_refl) as (_ & Habs & _). apply Hs in Habs. discriminate.
Qed.

End SchemaProperties.

Section ActionSchemaProperties.
Context `{D : Decls}.

(** The loop of [verifyActionSchema] over the properties runs to its end
    exactly when they are CruxIDs, and then holds in its flags whether
    [nextstep] and [done] are among them. *)
Lemma propertiesLoop_inr props nextStepFound doneFound flags :
  propertiesLoop props nextStepFound doneFound = inr flags ↔
  (∀ p, p ∈ props → MatchString p = true)
  ∧ flags = (nextStepFound || isStringInArray nextStep props,
             doneFound || isStringInArray done props).
Proof.
  revert nextStepFound doneFound.
  induction props as [|p props IH]; intros nextStepFound doneFound; simpl.
  - rewrite !orb_false_r. split.
    + intros [= <-]. split; [|done]. intros p Hp. inversion Hp.
    + by intros [_ ->].
  - destruct (MatchString p) eqn:Hp; simpl.
    2:{ split; [discriminate|]. intros [H _]. rewrite H in Hp by left. discriminate. }
    assert ((∀ q, q ∈ p :: props → MatchString q = true)
            ↔ ∀ q, q ∈ props → MatchString q = true) as ->.
    { split; [intros H q Hq; apply H; by right|].
      intros H q [->|Hq]%elem_of_cons; auto. }
    destruct (String.eqb_spec p nextStep) as [->|Hns].
    + rewrite IH. simpl. by rewrite !orb_true_r.
    + destruct (String.eqb_spec p done) as [->|Hd].
      * rewrite IH. by rewrite !orb_true_r.
      * by rewrite IH.
Qed.

Lemma tasks_declared_CruxIDs (tasks : list string) :
  firstReturn verifyTaskName tasks = None ↔ ∀ t, t ∈ tasks → MatchString t = true.
Proof.
  rewrite firstReturn_None. unfold verifyTaskName.
  split; intros H t Ht; specialize (H t Ht).
  - by destruct (MatchString t).
  - by rewrite H.
Qed.

Lemma two_properties (props : list string) :
  length props = 2 ∧ isStringInArray nextStep props = true
  ∧ isStringInArray done props = true
  ↔ props = [nextStep; done] ∨ props = [done; nextStep].
Proof.
  split.
  - intros (Hlen & Hns & Hd). destruct props as [|p [|q [|r props]]]; try done.
    simpl in Hns, Hd.
    destruct (String.eqb_spec p nextStep) as [Hpn|Hpn],
      (String.eqb_spec p done) as [Hpd|Hpd],
      (String.eqb_spec q nextStep) as [Hqn|Hqn],
      (String.eqb_spec q done) as [Hqd|Hqd];
      try discriminate; subst; try discriminate; auto.
  - by intros [->| ->].
Qed.

(** X2: [verifyActionSchema] accepts a schema exactly when tasks and
    properties are not both empty and are all CruxIDs and, for a workflow,
    the properties are [nextstep] and [done], once each in either order,
    and the tasks with [START] make up the map of values of [step]. *)
Theorem X2_action_schema_accepted_iff rs isWF :
  let tasks := ActionSchema.tasks (RuleSchema.actionSchema rs) in
  let properties := ActionSchema.properties (RuleSchema.actionSchema rs) in
  verifyActionSchema rs isWF = (true, None) ↔
  (tasks ≠ [] ∨ properties ≠ [])
  ∧ (∀ t, t ∈ tasks → MatchString t = true)
  ∧ (∀ p, p ∈ properties → MatchString p = true)
  ∧ (isWF = true →
     (properties = [nextStep; done] ∨ properties = [done; nextStep])
     ∧ getStepAttrVals rs = getTasksMapForWF tasks).
Proof.
  intros tasks properties. unfold verifyActionSchema. fold tasks properties.
  rewrite <- two_properties, <- tasks_declared_CruxIDs.
  assert ((length tasks =? 0)%nat && (length properties =? 0)%nat = false
          ↔ tasks ≠ [] ∨ properties ≠ []) as Hempty.
  { destruct tasks, properties; simpl; naive_solver. }
  destruct (_ && (length properties =? 0)%nat).
  { split; [discriminate|]. intros [Hne _]. apply Hempty in Hne. discriminate. }
  destruct (firstReturn verifyTaskName tasks);
    [split; [discriminate | by intros (_ & ? & _)]|].
  destruct (propertiesLoop properties false false) as [err|[ns dn]] eqn:Hloop.
  { destruct (isWF && negb (length properties =? 2)%nat);
      (split; [discriminate|]); intros (_ & _ & Hprops & _);
      assert (∃ flags, propertiesLoop properties false false = inr flags)
        as [flags Hflags] by (eexists; by apply propertiesLoop_inr);
      congruence. }
  apply propertiesLoop_inr in Hloop as [Hprops [= -> ->]]. simpl.
  destruct isWF; simpl.
  2:{ split; [|done]. intros _. split_and!; try done. by apply Hempty. }
  unfold DeepEqual.
  destruct (Nat.eqb_spec (length properties) 2) as [Hlen|Hlen]; simpl.
  2:{ split; [discriminate|]. intros (_ & _ & _ & Hwf).
      by destruct (Hwf eq_refl) as [(? & _) _]. }
  destruct (isStringInArray nextStep properties) eqn:Hns; simpl.
  2:{ split; [discriminate|]. intros (_ & _ & _ & Hwf).
      by destruct (Hwf eq_refl) as [(_ & ? & _) _]. }
  destruct (isStringInArray done properties) eqn:Hd; simpl.
  2:{ split; [discriminate|]. intros (_ & _ & _ & Hwf).
      by destruct (Hwf eq_refl) as [(_ & _ & ?) _]. }
  case_bool_decide as Heq; simpl.
  - split; [|done]. intros _. split_and!; try done. by apply Hempty.
  - split; [discriminate|]. intros (_ & _ & _ & Hwf).
    by destruct (Hwf eq_refl) as [_ ?].
Qed.

Lemma patternSchemaLoop_workflow ro ro' class attrs stepFound stepFailedFound flags :
  patternSchemaLoop ro class true attrs stepFound stepFailedFound = inr flags →
  patternSchemaLoop ro' class false attrs stepFound stepFailedFound = inr flags.
Proof.
  rewrite !patternSchemaLoop_inr. intros [Hall ->]. split; [|done].
  intros a Ha. split; [by apply Hall | done].
Qed.

(** X3: the workflow checks only add to the others: a schema that
    [verifyRuleSchema] accepts as a workflow schema it also accepts as a
    schema for business rules, in every run. *)
Theorem X3_workflow_schema_is_a_schema ro ro' rs :
  verifyRuleSchema ro rs true = (true, None) →
  verifyRuleSchema ro' rs false = (true, None).
Proof.
  rewrite !verifyRuleSchema_accepted. intros (Hclass & Hps & Has).
  split_and!; [done | |].
  - unfold verifyPatternSchema in *.
    destruct (length _ =? 0)%nat; [discriminate|].
    destruct (patternSchemaLoop ro _ true _ _ _) as [err|flags] eqn:Hloop;
      [discriminate|].
    rewrite (patternSchemaLoop_workflow ro ro' _ _ _ _ _ Hloop).
    by destruct flags.
  - unfold verifyActionSchema in *.
    destruct (_ && (length _ =? 0)%nat); [discriminate|].
    destruct (firstReturn verifyTaskName _); [discriminate|].
    simpl in *. destruct (negb (length _ =? 2)%nat); [discriminate|].
    destruct (propertiesLoop _ false false) as [err|[ns dn]]; [discriminate|].
    done.
Qed.

End ActionSchemaProperties.

Lemma X3_workflow_schema_is_a_schema_witness :
  verifyRuleSchema backwardOrder orderSchema false = (true, None).
Proof.
  apply (X3_workflow_schema_is_a_schema forwardOrder backwardOrder orderSchema).
  vm_compute. reflexivity.
Defined.

(** *** Rule sets *)

Section RuleSetProperties.
Context `{D : Decls}.

Lemma verifyTerm_None schema term :
  verifyTerm schema term = None ↔ termWellTyped schema term.
Proof.
  unfold verifyTerm, termWellTyped.
  assert (Term.op term ∈ [opEQ; opNE; opLT; opLE; opGT; opGE]
          ↔ goIndex validOps (Term.op term) = true) as ->
    by (by rewrite validOps_spec, bool_decide_eq_true).
  destruct (String.eqb_spec (getType schema (Term.attrName term)) "") as [Hty|Hty].
  - rewrite Hty. destruct (isStringInArray _ _) eqn:Htask; simpl.
    + apply isStringInArray_true in Htask. rewrite verifyType_bool.
      destruct (Term.attrVal term); simpl;
        try (split; [discriminate | intros [[[? _]|(_ & _ & ? & ?)] _]; done]).
      destruct (goIndex validOps (Term.op term)); simpl.
      * split; [|done]. intros _. split; [|done]. right. eauto.
      * split; [discriminate | by intros [_ ?]].
    + apply isStringInArray_false in Htask.
      split; [discriminate | intros [[[? _]|(_ & ? & _)] _]; done].
  - destruct (verifyType _ _); simpl.
    + destruct (goIndex validOps (Term.op term)); simpl.
      * split; [|done]. intros _. split; [by left | done].
      * split; [discriminate | by intros [_ ?]].
    + split; [discriminate | intros [[[_ ?]|[? _]] _]; done].
Qed.

(** X4: [verifyRulePatterns] accepts a rule set exactly when every term of
    every rule is well typed (its attribute is declared with a type that the
    literal matches, or is a task tested against a bool; its operator is one
    of the six) and, for a workflow, every rule has a term on [step]. *)
Theorem X4_rule_patterns_accepted_iff ruleSet schema isWF :
  verifyRulePatterns ruleSet schema isWF = (true, None) ↔
  ∀ rule, rule ∈ RuleSet.rules ruleSet →
    (∀ term, term ∈ Rule.rulePattern rule → termWellTyped schema term)
    ∧ (isWF = true →
       ∃ term, term ∈ Rule.rulePattern rule ∧ Term.attrName term = step).
Proof.
  rewrite verifyRulePatterns_accepted.
  split; intros H rule Hrule; specialize (H rule Hrule).
  - apply verifyRulePattern_None in H as [Hterms Hstep]. split.
    + intros term Hterm. by apply verifyTerm_None, Hterms.
    + intros HisWF. by apply stepFoundIn_true, Hstep.
  - destruct H as [Hterms Hstep]. apply verifyRulePattern_None. split.
    + intros term Hterm. by apply verifyTerm_None, Hterms.
    + intros HisWF. by apply stepFoundIn_true, Hstep.
Qed.

Lemma verifyRuleAction_None ro setName schema isWF rule :
  verifyRuleAction ro setName schema isWF rule = None ↔
  actionsDeclared schema rule ∧ (isWF = true → workflowActions rule).
Proof.
  unfold workflowActions.
  destruct (verifyRuleAction_cases ro setName schema isWF rule)
    as [(Hnot & err & -> & _)|(Hdecl & ->)].
  { split; [discriminate | by intros [? _]]. }
  destruct isWF; [|by split].
  set (props := RuleActions.properties (Rule.ruleActions rule)).
  set (tasks := RuleActions.tasks (Rule.ruleActions rule)).
  set (P1 := props !! nextStep = None ∧ props !! done ≠ Some trueStr).
  set (P2 := props !! done ≠ Some trueStr ∧ tasks = []).
  set (P3 := default "" (props !! nextStep) ≠ ""
             ∧ default "" (props !! nextStep) ∉ tasks).
  assert ((is_Some (props !! nextStep) ∨ props !! done = Some trueStr)
          ∧ (props !! done = Some trueStr ∨ tasks ≠ [])
          ∧ (∀ v, props !! nextStep = Some v → v ≠ "" → v ∈ tasks)
          ↔ ¬ P1 ∧ ¬ P2 ∧ ¬ P3) as Hw.
  { unfold P1, P2, P3. split.
    - intros (Hset & Htask & Hns). split_and!.
      + intros [Hnone Hd]. destruct Hset as [[v Hv]|Hdone]; congruence.
      + intros [Hd Hnil]. by destruct Htask.
      + intros [Hv Hnot]. destruct (props !! nextStep) as [v|]; [|done].
        simpl in *. by apply Hnot, Hns.
    - intros (Hn1 & Hn2 & Hn3). split_and!.
      + destruct (props !! nextStep) as [v|]; [left; eauto|].
        destruct (decide (props !! done = Some trueStr)); [by right|].
        by destruct Hn1.
      + destruct (decide (props !! done = Some trueStr)); [by left|].
        right. intros Hnil. by destruct Hn2.
      + intros v Hv Hne. rewrite Hv in Hn3. simpl in Hn3.
        destruct (decide (v ∈ tasks)); [done|]. by destruct Hn3. }
  rewrite Hw. clear Hw.
  repeat case_bool_decide; (split; [try discriminate | intros [_ Hwf]]);
    try (intros _; split; [done|]; intros _; by split_and!);
    by destruct (Hwf eq_refl) as (? & ? & ?).
Qed.

(** X5: [verifyRuleActions] accepts a rule set exactly when every rule names
    only declared tasks and declared properties and does not both return and
    exit and, for a workflow, sets [nextstep] or sets [done] to true, has a
    task unless [done] is true, and has its non-empty [nextstep] among its
    tasks; in whatever order the run walks the properties. *)
Theorem X5_rule_actions_accepted_iff ro ruleSet schema isWF :
  verifyRuleActions ro ruleSet schema isWF = (true, None) ↔
  ∀ rule, rule ∈ RuleSet.rules ruleSet →
    actionsDeclared schema rule ∧ (isWF = true → workflowActions rule).
Proof.
  rewrite verifyRuleActions_accepted.
  split; intros H rule Hrule; specialize (H rule Hrule).
  - by apply verifyRuleAction_None in H.
  - by apply verifyRuleAction_None.
Qed.

End RuleSetProperties.

Section RuleSetComposition.
Context `{D : Decls}.

(** In a schema that passes [verifyActionSchema] as a workflow schema, the
    tasks and [START] are values of [step]. *)
Lemma verifyActionSchema_workflow_steps rs :
  verifyActionSchema rs true = (true, None) →
  ∀ k, k ∈ ActionSchema.tasks (RuleSchema.actionSchema rs) ∨ k = start →
       goIndex (getStepAttrVals rs) k = true.
Proof.
  intros Hact%verifyActionSchema_workflow_accepted k Hk.
  unfold tasksMatchSteps, DeepEqual in Hact. apply bool_decide_eq_true in Hact.
  unfold goIndex. rewrite <- Hact, getTasksMapForWF_lookup.
  by rewrite bool_decide_eq_true_2.
Qed.

(** X6: a rule set that [verifyRuleSet] accepts as a workflow it also
    accepts as a set of business rules against the same registry, in every
    run. *)
Theorem X6_workflow_rule_set_is_a_rule_set ro ro' ruleSchemas rs :
  verifyRuleSet ro ruleSchemas rs true = (true, None) →
  verifyRuleSet ro' ruleSchemas rs false = (true, None).
Proof.
  unfold verifyRuleSet.
  destruct (getSchema ruleSchemas (RuleSet.class rs)) as [schema [err|]];
    [discriminate|].
  destruct (verifyRulePatterns_outcome rs schema true) as [Hp|[e Hp]];
    rewrite Hp; [|discriminate].
  destruct (verifyRuleActions_outcome ro rs schema true) as [Ha|[e Ha]];
    rewrite Ha; [|discriminate].
  intros _. unfold accepted in Hp, Ha.
  assert (verifyRulePatterns rs schema false = (true, None)) as ->.
  { apply verifyRulePatterns_accepted. intros rule Hrule.
    rewrite verifyRulePatterns_accepted in Hp. specialize (Hp rule Hrule).
    apply verifyRulePattern_None in Hp as [Hterms _].
    apply verifyRulePattern_None. by split. }
  assert (verifyRuleActions ro' rs schema false = (true, None)) as ->; [|done].
  apply verifyRuleActions_accepted. intros rule Hrule.
  rewrite verifyRuleActions_accepted in Ha. specialize (Ha rule Hrule).
  apply verifyRuleAction_None in Ha as [Hdecl _].
  apply verifyRuleAction_None. by split.
Qed.

(** X7: [verifyType] accepts a value for no type but the six value types;
    and it accepts nil, or a value that is neither bool, int, float64 nor
    string, only for the timestamp type and only if the empty string parses
    as a timestamp, since a failed assertion to [string] leaves the empty
    string to parse. *)
Theorem X7_verifyType_known_types_only val valType :
  verifyType val valType = true →
  valType ∈ [typeBool; typeInt; typeFloat; typeStr; typeEnum; typeTS]
  ∧ (val = AnyNil ∨ val = AnyOther → valType = typeTS ∧ timeParse "" = true).
Proof.
  unfold verifyType. rewrite !elem_of_cons.
  destruct (String.eqb_spec valType typeBool) as [->|_].
  { intros Hv. split; [by left|]. by intros [->| ->]. }
  destruct (String.eqb_spec valType typeInt) as [->|_].
  { intros Hv. split; [by right; left|]. by intros [->| ->]. }
  destruct (String.eqb_spec valType typeFloat) as [->|_].
  { intros Hv. split; [by right; right; left|]. by intros [->| ->]. }
  destruct (String.eqb_spec valType typeStr) as [->|_]; simpl.
  { intros Hv. split; [by right; right; right; left|]. by intros [->| ->]. }
  destruct (String.eqb_spec valType typeEnum) as [->|_].
  { intros Hv. split; [by right; right; right; right; left|]. by intros [->| ->]. }
  destruct (String.eqb_spec valType typeTS) as [->|_]; [|discriminate].
  intros Hv. split; [by right; right; right; right; right; left|].
  by intros [->| ->].
Qed.

(** X8: when the schema passes [verifyRuleSchema] as a workflow schema and
    a rule set passes [verifyRuleActions] against it as a workflow, every
    task of every rule and every non-empty [nextstep] value is one of the
    values the schema allows for [step], and so is [START]. The empty string
    is none of them, so a [nextstep] that is set to the empty string, which
    [verifyRuleActions] lets through, names no step of the schema. *)
Theorem X8_nonempty_nextstep_is_a_legal_step ro ro' schema ruleSet rule :
  verifyRuleSchema ro schema true = (true, None) →
  verifyRuleActions ro' ruleSet schema true = (true, None) →
  rule ∈ RuleSet.rules ruleSet →
  goIndex (getStepAttrVals schema) start = true
  ∧ (∀ t, t ∈ RuleActions.tasks (Rule.ruleActions rule) →
          goIndex (getStepAttrVals schema) t = true)
  ∧ (∀ v, RuleActions.properties (Rule.ruleActions rule) !! nextStep = Some v →
          v ≠ "" → goIndex (getStepAttrVals schema) v = true)
  ∧ goIndex (getStepAttrVals schema) "" = false.
Proof.
  intros (_ & _ & Hact)%verifyRuleSchema_accepted Hrules Hrule.
  assert (goIndex (getStepAttrVals schema) "" = false) as Hempty.
  { pose proof (verifyActionSchema_workflow_accepted _ Hact) as Hmatch.
    unfold tasksMatchSteps, DeepEqual in Hmatch.
    apply bool_decide_eq_true in Hmatch.
    unfold goIndex. rewrite <- Hmatch, getTasksMapForWF_lookup.
    rewrite bool_decide_eq_false_2; [done|]. intros [Htask|Hstart]; [|done].
    unfold verifyActionSchema in Hact.
    destruct (_ && (length _ =? 0)%nat); [discriminate|].
    destruct (firstReturn verifyTaskName _) eqn:Htasks; [discriminate|].
    rewrite tasks_declared_CruxIDs in Htasks.
    by apply Htasks in Htask. }
  pose proof (verifyActionSchema_workflow_steps _ Hact) as Hsteps. clear Hact.
  rename Hsteps into Hact.
  rewrite verifyRuleActions_accepted in Hrules. specialize (Hrules rule Hrule).
  apply verifyRuleAction_None in Hrules as [(Htasks & _) Hwf].
  destruct (Hwf eq_refl) as (_ & _ & Hns).
  split_and!.
  - apply Hact. by right.
  - intros t Ht. apply Hact. left. by apply Htasks.
  - intros v Hv Hne. apply Hact. left. by apply Htasks, Hns.
  - done.
Qed.

(** X9: [verifyRuleSet] returns the first failure in the order schema
    lookup, pattern pass, action pass. Without a schema of the rule set's
    class the error is the one of [getSchema], whatever the rules are; with
    one, an error of the pattern pass is returned as it is, and the action
    pass decides when the pattern pass found nothing. A rule set without
    rules is accepted exactly when the registry holds a schema of its
    class. *)
Theorem X9_rule_set_fail_fast_order ro ruleSchemas rs isWF :
  ((∀ s, s ∈ ruleSchemas → RuleSchema.class s ≠ RuleSet.class rs) →
   verifyRuleSet ro ruleSchemas rs isWF =
     (false, Some ("no schema found for class " ++ RuleSet.class rs)))
  ∧ (∀ schema, getSchema ruleSchemas (RuleSet.class rs) = (schema, None) →
       (∀ err, verifyRulePatterns rs schema isWF = (false, Some err) →
               verifyRuleSet ro ruleSchemas rs isWF = (false, Some err))
       ∧ (verifyRulePatterns rs schema isWF = (true, None) →
          verifyRuleSet ro ruleSchemas rs isWF = verifyRuleActions ro rs schema isWF))
  ∧ (RuleSet.rules rs = [] →
     (verifyRuleSet ro ruleSchemas rs isWF = (true, None)
      ↔ ∃ s, s ∈ ruleSchemas ∧ RuleSchema.class s = RuleSet.class rs)).
Proof.
  unfold verifyRuleSet. split_and!.
  - intros Hnone.
    destruct (getSchema_outcome ruleSchemas (RuleSet.class rs))
      as [(s & _ & Hin & Hclass)|[Herr _]]; [by destruct (Hnone s Hin)|].
    destruct (getSchema _ _) as [schema err]. simpl in Herr. by rewrite Herr.
  - intros schema ->. split.
    + by intros err ->.
    + intros ->.
      by destruct (verifyRuleActions_outcome ro rs schema isWF) as [->|[err ->]].
  - intros Hrules.
    destruct (getSchema_outcome ruleSchemas (RuleSet.class rs))
      as [(s & Hget & Hin & Hclass)|[Herr Hnone]].
    + rewrite Hget. unfold verifyRulePatterns, verifyRuleActions. rewrite Hrules.
      simpl. split; eauto.
    + destruct (getSchema _ _) as [schema err]. simpl in Herr. rewrite Herr.
      split; [discriminate|]. intros (s & Hin & Hclass). by destruct (Hnone s Hin).
Qed.

(** X10: [getSchema] returns the first schema of the class in the registry,
    so a schema registered after another of the same class is never
    returned; and it returns the no-schema error, with the zero schema,
    exactly when the registry holds no schema of the class. *)
Theorem X10_getSchema_first_of_class ruleSchemas class :
  (∀ rs, getSchema ruleSchemas class = (rs, None) ↔ firstOfClass ruleSchemas class rs)
  ∧ ((∀ s, s ∈ ruleSchemas → RuleSchema.class s ≠ class) ↔
     getSchema ruleSchemas class =
       (RuleSchema.mk "" [] (ActionSchema.mk [] []),
        Some ("no schema found for class " ++ class))).
Proof.
  unfold firstOfClass. induction ruleSchemas as [|s ruleSchemas [IHfound IHnone]];
    simpl.
  - split.
    + intros rs. split; [discriminate|]. intros (pre & post & Heq & _).
      by destruct pre.
    + split; [done|]. intros _ s Hs. inversion Hs.
  - destruct (String.eqb_spec class (RuleSchema.class s)) as [Heq|Hne].
    + split.
      * intros rs. split.
        -- intros [= <-]. exists [], ruleSchemas. split_and!; [done..|].
           intros s' Hs'. inversion Hs'.
        -- intros ([|p pre] & post & Hl & Hclass & Hpre); simplify_eq/=; [done|].
           destruct (Hpre p); [left | done].
      * split; [|discriminate]. intros Hnone. destruct (Hnone s); [left | done].
    + split.
      * intros rs. rewrite IHfound. split.
        -- intros (pre & post & -> & Hclass & Hpre).
           exists (s :: pre), post. split_and!; [done..|].
           intros s' [->|Hs']%elem_of_cons; [congruence | auto].
        -- intros ([|p pre] & post & Hl & Hclass & Hpre); simplify_eq/=.
           exists pre, post. split_and!; [done..|].
           intros s' Hs'. apply Hpre. by right.
      * rewrite <- IHnone. split.
        -- intros Hnone s' Hs'. apply Hnone. by right.
        -- intros Hnone s' [->|Hs']%elem_of_cons; [congruence | auto].
Qed.

End RuleSetComposition.

(** *** Results *)

Section ResultShape.
Context `{D : Decls}.

Lemma doesRuleSetExist_outcome ruleSets name :
  accepted (doesRuleSetExist ruleSets name) ∨ rejected (doesRuleSetExist ruleSets name).
Proof.
  rewrite doesRuleSetExist_unresolved. unfold accepted, rejected.
  destruct (unresolved ruleSets name); [right; eauto | by left].
Qed.

(** X11: no verifier returns [true] with an error or [false] without one:
    the result of each is [(true, nil)] or [false] with an error, so a
    caller may test either component. *)
Theorem X11_ok_iff_no_error ro :
  (∀ rs isWF, let r := verifyRuleSchema ro rs isWF in accepted r ∨ rejected r)
  ∧ (∀ rs isWF, let r := verifyPatternSchema ro rs isWF in accepted r ∨ rejected r)
  ∧ (∀ rs isWF, let r := verifyActionSchema rs isWF in accepted r ∨ rejected r)
  ∧ (∀ ruleSchemas rs isWF,
       let r := verifyRuleSet ro ruleSchemas rs isWF in accepted r ∨ rejected r)
  ∧ (∀ rs schema isWF,
       let r := verifyRulePatterns rs schema isWF in accepted r ∨ rejected r)
  ∧ (∀ rs schema isWF,
       let r := verifyRuleActions ro rs schema isWF in accepted r ∨ rejected r)
  ∧ (∀ ruleSets, let r := doReferentialChecks ro ruleSets in accepted r ∨ rejected r)
  ∧ (∀ ruleSets name,
       let r := doesRuleSetExist ruleSets name in accepted r ∨ rejected r)
  ∧ (∀ convertEntityAttrVal ruleSchemas e,
       let r := verifyEntity convertEntityAttrVal ro ruleSchemas e in
       accepted r ∨ rejected r).
Proof.
  split_and!; intros; subst r.
  - apply verifyRuleSchema_outcome.
  - apply verifyPatternSchema_outcome.
  - apply verifyActionSchema_outcome.
  - apply verifyRuleSet_outcome.
  - apply verifyRulePatterns_outcome.
  - apply verifyRuleActions_outcome.
  - apply doReferentialChecks_outcome.
  - apply doesRuleSetExist_outcome.
  - apply verifyEntity_outcome.
Qed.

End ResultShape.

(** *** The registry of rule sets *)

Section RegistryProperties.
Implicit Types (ro : RangeOrder) (ruleSets : gmap string RuleSet).

(** X12: once a rule set that a rule of another registered rule set calls
    is removed from the registry, [doReferentialChecks] fails. *)
Theorem X12_removing_a_called_rule_set_fails ro ruleSets key rs rule name :
  ruleSets !! key = Some rs →
  rule ∈ RuleSet.rules rs →
  key ≠ name →
  name ≠ "" →
  RuleActions.thenCall (Rule.ruleActions rule) = name
  ∨ RuleActions.elseCall (Rule.ruleActions rule) = name →
  rejected (doReferentialChecks ro (delete name ruleSets)).
Proof.
  intros Hkey Hrule Hne Hname Hcall.
  destruct (doReferentialChecks_outcome ro (delete name ruleSets)) as [Hacc|Hrej];
    [|done].
  unfold accepted in Hacc. rewrite doReferentialChecks_accepted in Hacc.
  destruct (Hacc key rs rule) as [Hthen Helse];
    [by rewrite lookup_delete_ne | done |].
  assert (¬ resolves (delete name ruleSets) name) as Hnot.
  { intros [?|[x Hx]]; [done|]. by rewrite lookup_delete_eq in Hx. }
  destruct Hcall as [<-|<-]; by destruct Hnot.
Qed.

(** X13: registering a rule set keeps a closed registry closed, provided
    the calls of the new rule set resolve in the registry that holds it. *)
Theorem X13_registering_keeps_closed ro ro' ruleSets key rs :
  doReferentialChecks ro ruleSets = (true, None) →
  (∀ rule, rule ∈ RuleSet.rules rs →
     resolves (<[key := rs]> ruleSets) (RuleActions.thenCall (Rule.ruleActions rule))
     ∧ resolves (<[key := rs]> ruleSets) (RuleActions.elseCall (Rule.ruleActions rule))) →
  doReferentialChecks ro' (<[key := rs]> ruleSets) = (true, None).
Proof.
  rewrite !doReferentialChecks_accepted. intros Hold Hnew key' rs' rule Hkey Hrule.
  apply lookup_insert_Some in Hkey as [[<- <-]|[Hne Hkey]]; [by apply Hnew|].
  assert (∀ name, resolves ruleSets name → resolves (<[key := rs]> ruleSets) name)
    as Hmono.
  { intros name [->|Hsome]; [by left|]. right.
    apply lookup_insert_is_Some. destruct (decide (key = name)); auto. }
  destruct (Hold key' rs' rule Hkey Hrule). split; by apply Hmono.
Qed.

End RegistryProperties.

Lemma X12_removing_a_called_rule_set_fails_witness :
  rejected (doReferentialChecks forwardOrder (delete "R2" closedRegistry)).
Proof.
  apply (X12_removing_a_called_rule_set_fails forwardOrder closedRegistry "R1"
           (RuleSet.mk "order" "R1" [callingRule "R2"]) (callingRule "R2") "R2").
  - vm_compute. reflexivity.
  - left.
  - discriminate.
  - discriminate.
  - left. reflexivity.
Defined.

Lemma X13_registering_keeps_closed_witness :
  doReferentialChecks backwardOrder
    (<[ "R3" := RuleSet.mk "order" "R3" [callingRule "R1"] ]> closedRegistry)
  = (true, None).
Proof.
  apply (X13_registering_keeps_closed forwardOrder backwardOrder closedRegistry "R3"
           (RuleSet.mk "order" "R3" [callingRule "R1"])).
  - vm_compute. reflexivity.
  - intros rule Hrule. apply list_elem_of_singleton in Hrule. subst rule. split.
    + right. vm_compute. eauto.
    + by left.
Defined.

(** *** Entities *)

Section EntityProperties.
Context (convertEntityAttrVal : GoAny → string → GoAny * option string).

Lemma size_list_to_set_lt (l : list string) :
  ¬ NoDup l → (size (list_to_set l : gset string) < length l)%nat.
Proof.
  induction l as [|x l IH]; [intros H; destruct H; constructor|].
  intros Hdup. rewrite list_to_set_cons. simpl.
  pose proof (size_list_to_set_le l) as Hle.
  destruct (decide (x ∈ l)) as [Hin|Hnotin].
  - assert ({[x]} ∪ list_to_set l = (list_to_set l : gset string)) as ->
      by set_solver.
    lia.
  - assert (¬ NoDup l) as Hl by (intros Hl; apply Hdup; by constructor).
    apply IH in Hl. rewrite size_union_alt, size_singleton.
    assert (list_to_set l ∖ {[x]} ⊆ (list_to_set l : gset string)) as Hsub
      by set_solver.
    apply subseteq_size in Hsub. lia.
Qed.

(** X14: an entity that [verifyEntity] accepts has exactly the attributes
    its schema declares, and the schema declares no name twice: against a
    schema with a name declared twice every entity is rejected, since the
    entity must have as many attributes as the pattern-schema has
    entries. *)
Theorem X14_accepted_entity_has_the_declared_attributes ro ruleSchemas e rs :
  getSchema ruleSchemas (Entity.class e) = (rs, None) →
  (verifyEntity convertEntityAttrVal ro ruleSchemas e = (true, None) →
   NoDup (attrNames rs) ∧ dom (Entity.attrs e) = list_to_set (attrNames rs))
  ∧ (¬ NoDup (attrNames rs) →
     rejected (verifyEntity convertEntityAttrVal ro ruleSchemas e)).
Proof.
  intros Hget.
  assert (verifyEntity convertEntityAttrVal ro ruleSchemas e = (true, None) →
          NoDup (attrNames rs) ∧ dom (Entity.attrs e) = list_to_set (attrNames rs))
    as Hok.
  { intros (rs' & Hget' & Hattrs & Hsize)%verifyEntity_accepted.
    assert (rs' = rs) as -> by congruence.
    assert (dom (Entity.attrs e) ⊆ (list_to_set (attrNames rs) : gset string))
      as Hsub.
    { intros name [val Hval]%elem_of_dom. apply elem_of_list_to_set.
      destruct (Hattrs name val Hval) as [Hty _]. by apply getTypeIn_declared. }
    pose proof (subseteq_size _ _ Hsub) as Hle. rewrite size_dom in Hle.
    assert (length (attrNames rs) = length (RuleSchema.patternSchema rs)) as Hlen
      by apply length_fmap.
    assert (NoDup (attrNames rs)) as Hnodup.
    { destruct (decide (NoDup (attrNames rs))) as [|Hdup]; [done|].
      apply size_list_to_set_lt in Hdup. lia. }
    split; [done|]. apply set_subseteq_size_eq; [done|].
    rewrite size_dom, size_list_to_set by done. lia. }
  split; [done|]. intros Hdup.
  destruct (verifyEntity_outcome convertEntityAttrVal ro ruleSchemas e)
    as [Hacc|Hrej]; [|done].
  by destruct (Hok Hacc).
Qed.

Lemma rangeOf_nil {V : Type} ro : rangeOf ro (∅ : gmap string V) = [].
Proof.
  apply Permutation_nil_r. rewrite (rangeOf_perm ro V ∅).
  by rewrite map_to_list_empty.
Qed.

(** X15: [verifyEntity] on an entity whose class has no schema returns the
    error of [getSchema], whatever the attributes are; and an entity without
    attributes is accepted only against a schema with an empty
    pattern-schema, and otherwise gets the error on the number of
    attributes. *)
Theorem X15_entity_without_schema_or_attributes ro ruleSchemas e :
  ((∀ s, s ∈ ruleSchemas → RuleSchema.class s ≠ Entity.class e) →
   verifyEntity convertEntityAttrVal ro ruleSchemas e =
     (false, Some ("no schema found for class " ++ Entity.class e)))
  ∧ (∀ rs, getSchema ruleSchemas (Entity.class e) = (rs, None) →
       Entity.attrs e = ∅ →
       verifyEntity convertEntityAttrVal ro ruleSchemas e =
         if (length (RuleSchema.patternSchema rs) =? 0)%nat
         then (true, None)
         else (false,
               Some "entity does not contain all the attributes in its pattern-schema")).
Proof.
  unfold verifyEntity. split.
  - intros Hnone.
    destruct (getSchema_outcome ruleSchemas (Entity.class e))
      as [(s & _ & Hin & Hclass)|[Herr _]]; [by destruct (Hnone s Hin)|].
    destruct (getSchema _ _) as [schema err]. simpl in Herr. by rewrite Herr.
  - intros rs -> ->. rewrite rangeOf_nil. simpl. rewrite map_size_empty.
    by destruct (RuleSchema.patternSchema rs).
Qed.

End EntityProperties.

Lemma X14_accepted_entity_has_the_declared_attributes_witness :
  (NoDup (attrNames orderSchema)
   ∧ dom (Entity.attrs fullEntity) = list_to_set (attrNames orderSchema))
  ∧ rejected (verifyEntity specConvert forwardOrder [twiceDeclaredSchema]
                (Entity.mk "order" {[ "x" := AnyString "a" ]})).
Proof.
  split.
  - apply (X14_accepted_entity_has_the_declared_attributes specConvert forwardOrder
             [orderSchema] fullEntity orderSchema); vm_compute; reflexivity.
  - apply (X14_accepted_entity_has_the_declared_attributes specConvert forwardOrder
             [twiceDeclaredSchema] (Entity.mk "order" {[ "x" := AnyString "a" ]})
             twiceDeclaredSchema); [vm_compute; reflexivity|].
    intros Hnodup. apply NoDup_cons in Hnodup as [Hnot _]. apply Hnot. left.
Defined.

Lemma X15_entity_without_schema_or_attributes_witness :
  verifyEntity specConvert forwardOrder [orderSchema] (Entity.mk "invoice" ∅)
    = (false, Some "no schema found for class invoice")
  ∧ verifyEntity specConvert forwardOrder [orderSchema] emptyEntity
    = (false, Some "entity does not contain all the attributes in its pattern-schema").
Proof.
  split.
  - destruct (X15_entity_without_schema_or_attributes specConvert forwardOrder
                [orderSchema] (Entity.mk "invoice" ∅)) as [Hnone _].
    apply Hnone. intros s Hs. apply list_elem_of_singleton in Hs. subst s.
    discriminate.
  - destruct (X15_entity_without_schema_or_attributes specConvert forwardOrder
                [orderSchema] emptyEntity) as [_ Hempty].
    apply (Hempty orderSchema); reflexivity.
Defined.

(** *** Helpers that range over a map or build one *)

Section MapHelpers.
Context `{D : Decls}.

(** X16: whatever the order of the walk, [areNextStepAndDoneInProps]
    answers whether the properties have a [nextstep] entry and whether they
    have [done] set to [trueStr], and [getNextStep] answers the value of
    [nextstep], the empty string standing for an absent entry as well as for
    an empty value. *)
Theorem X16_property_helpers_read_the_map ro (props : gmap string string) :
  areNextStepAndDoneInProps ro props =
    (bool_decide (is_Some (props !! nextStep)),
     bool_decide (props !! done = Some trueStr))
  ∧ getNextStep ro props = default "" (props !! nextStep)
  ∧ (getNextStep ro props = ""
     ↔ props !! nextStep = None ∨ props !! nextStep = Some "").
Proof.
  split_and!.
  - apply areNextStepAndDoneInProps_lookup.
  - apply getNextStep_lookup.
  - rewrite getNextStep_lookup. destruct (props !! nextStep) as [v|]; simpl.
    + split; [intros ->; by right | by intros [|[= ->]]].
    + split; [by left | done].
Qed.

(** X17: [getTasksMapForWF] builds the set of the tasks and [START]: a key
    reads [true] exactly when it is a task or [START], no key is mapped to
    [false], the map is never empty, and two task lists with the same
    members, in any order and with any repetitions, give the same map. *)
Theorem X17_tasks_map_is_the_task_set (tasks : list string) :
  (∀ k, goIndex (getTasksMapForWF tasks) k = true ↔ k ∈ tasks ∨ k = start)
  ∧ (∀ k, getTasksMapForWF tasks !! k ≠ Some false)
  ∧ getTasksMapForWF tasks ≠ ∅
  ∧ (∀ tasks', (∀ k, k ∈ tasks ↔ k ∈ tasks') →
               getTasksMapForWF tasks = getTasksMapForWF tasks').
Proof.
  split_and!.
  - intros k. unfold goIndex. rewrite getTasksMapForWF_lookup.
    case_bool_decide; simpl; [done|]. split; [discriminate | done].
  - intros k. rewrite getTasksMapForWF_lookup. by case_bool_decide.
  - intros Hempty.
    assert (getTasksMapForWF tasks !! start = None) as Hnone
      by (by rewrite Hempty, lookup_empty).
    rewrite getTasksMapForWF_lookup, bool_decide_eq_true_2 in Hnone by (by right).
    discriminate.
  - intros tasks' Hsame. apply map_eq. intros k.
    rewrite !getTasksMapForWF_lookup. apply (f_equal (λ b : bool, if b then _ else _)).
    apply bool_decide_ext. by rewrite Hsame.
Qed.

Lemma getTypeIn_withVals f attrs name :
  getTypeIn ((λ a, AttrSchema.mk (AttrSchema.name a) (AttrSchema.valType a) (f a))
               <$> attrs) name
  = getTypeIn attrs name.
Proof.
  induction attrs as [|a attrs IH]; [done|].
  rewrite fmap_cons. cbn [getTypeIn AttrSchema.name AttrSchema.valType].
  by rewrite IH.
Qed.

Lemma getSchema_withVals f ruleSchemas class :
  getSchema (withVals f <$> ruleSchemas) class =
    (match (getSchema ruleSchemas class).2 with
     | Some _ => (getSchema ruleSchemas class).1
     | None => withVals f (getSchema ruleSchemas class).1
     end,
     (getSchema ruleSchemas class).2).
Proof.
  induction ruleSchemas as [|s ruleSchemas IH]; [done|].
  rewrite fmap_cons. cbn [getSchema withVals RuleSchema.class].
  by destruct (String.eqb class (RuleSchema.class s)).
Qed.

(** X18: rule-set and entity verification never read the values a schema
    declares for its attributes: with the values of every attribute
    replaced by any others, [verifyRulePatterns], [verifyRuleActions],
    [verifyRuleSet] and [verifyEntity] return what they returned. Whether
    the literal of a term or the value of an entity's attribute is one of
    the declared values of an enum is not checked here. *)
Theorem X18_declared_values_are_not_read f ro :
  (∀ rs schema isWF,
     verifyRulePatterns rs (withVals f schema) isWF = verifyRulePatterns rs schema isWF)
  ∧ (∀ rs schema isWF,
       verifyRuleActions ro rs (withVals f schema) isWF
       = verifyRuleActions ro rs schema isWF)
  ∧ (∀ ruleSchemas rs isWF,
       verifyRuleSet ro (withVals f <$> ruleSchemas) rs isWF
       = verifyRuleSet ro ruleSchemas rs isWF)
  ∧ (∀ convertEntityAttrVal ruleSchemas e,
       verifyEntity convertEntityAttrVal ro (withVals f <$> ruleSchemas) e
       = verifyEntity convertEntityAttrVal ro ruleSchemas e).
Proof.
  assert (∀ rs schema isWF,
            verifyRulePatterns rs (withVals f schema) isWF
            = verifyRulePatterns rs schema isWF) as Hpatterns.
  { intros rs schema isWF. unfold verifyRulePatterns.
    rewrite (firstReturn_ext _
               (verifyRulePattern (RuleSet.setName rs) schema isWF)); [done|].
    intros rule. unfold verifyRulePattern.
    rewrite (firstReturn_ext _ (verifyTerm schema)); [done|].
    intros term. unfold verifyTerm, getType. simpl.
    by rewrite getTypeIn_withVals. }
  split_and!; [done | done | |].
  - intros ruleSchemas rs isWF. unfold verifyRuleSet.
    rewrite getSchema_withVals.
    destruct (getSchema ruleSchemas (RuleSet.class rs)) as [schema [err|]];
      simpl; [done|].
    by rewrite Hpatterns.
  - intros convertEntityAttrVal ruleSchemas e. unfold verifyEntity.
    rewrite getSchema_withVals.
    destruct (getSchema ruleSchemas (Entity.class e)) as [schema [err|]];
      simpl; [done|].
    rewrite length_fmap.
    rewrite (firstReturn_ext _ (verifyEntityAttr convertEntityAttrVal schema));
      [done|].
    intros [name val]. unfold verifyEntityAttr, getType. simpl.
    by rewrite getTypeIn_withVals.
Qed.

End MapHelpers.

(** *** Names in an admitted schema *)

Section ReservedNames.
Context `{D : Decls}.

Lemma MatchString_not_reserved s :
  MatchString s = true → s ≠ "" ∧ s ≠ start.
Proof. intros Hs. split; intros ->; discriminate Hs. Qed.

(** X19: in a schema that [verifyRuleSchema] accepts, workflow or not, the
    class is not empty, and every attribute name, task and property is a
    CruxID and so neither the empty string nor [START]. *)
Theorem X19_names_are_CruxIDs ro rs isWF :
  verifyRuleSchema ro rs isWF = (true, None) →
  RuleSchema.class rs ≠ ""
  ∧ ∀ name,
      name ∈ attrNames rs
      ∨ name ∈ ActionSchema.tasks (RuleSchema.actionSchema rs)
      ∨ name ∈ ActionSchema.properties (RuleSchema.actionSchema rs) →
      MatchString name = true ∧ name ≠ "" ∧ name ≠ start.
Proof.
  intros (Hclass & Hps & Has)%verifyRuleSchema_accepted. split; [done|].
  assert (∀ name,
            name ∈ attrNames rs
            ∨ name ∈ ActionSchema.tasks (RuleSchema.actionSchema rs)
            ∨ name ∈ ActionSchema.properties (RuleSchema.actionSchema rs) →
            MatchString name = true) as Hmatch.
  { intros name [Hattr|[Htask|Hprop]].
    - unfold verifyPatternSchema in Hps.
      destruct (length _ =? 0)%nat; [discriminate|].
      destruct (patternSchemaLoop _ _ _ _ _ _) as [err|flags] eqn:Hloop;
        [discriminate|].
      apply patternSchemaLoop_inr in Hloop as [Hall _].
      apply list_elem_of_fmap in Hattr as (a & -> & Ha).
      by destruct (Hall a Ha) as [(? & _) _].
    - unfold verifyActionSchema in Has.
      destruct (_ && (length _ =? 0)%nat); [discriminate|].
      destruct (firstReturn verifyTaskName _) eqn:Htasks; [discriminate|].
      rewrite tasks_declared_CruxIDs in Htasks. auto.
    - unfold verifyActionSchema in Has.
      destruct (_ && (length _ =? 0)%nat); [discriminate|].
      destruct (firstReturn verifyTaskName _); [discriminate|].
      destruct (isWF && negb _); [discriminate|].
      destruct (propertiesLoop _ false false) as [err|flags] eqn:Hloop;
        [discriminate|].
      apply propertiesLoop_inr in Hloop as [Hall _]. auto. }
  intros name Hname. pose proof (Hmatch name Hname) as Hm.
  split; [done|]. by apply MatchString_not_reserved.
Qed.

End ReservedNames.

Lemma X6_workflow_rule_set_is_a_rule_set_witness :
  verifyRuleSet backwardOrder [orderSchema] twoStepRuleSet false = (true, None).
Proof.
  apply (X6_workflow_rule_set_is_a_rule_set forwardOrder backwardOrder
           [orderSchema] twoStepRuleSet).
  vm_compute. reflexivity.
Defined.

Lemma X7_verifyType_known_types_only_witness :
  "enum" ∈ ["bool"; "int"; "float"; "str"; "enum"; "ts"]
  ∧ (AnyString "approve" = AnyNil ∨ AnyString "approve" = AnyOther →
     "enum" = "ts" ∧ isTimestampShape "" = true).
Proof.
  refine (X7_verifyType_known_types_only (AnyString "approve") "enum" _).
  vm_compute. reflexivity.
Defined.

Lemma X8_nonempty_nextstep_is_a_legal_step_witness :
  goIndex (getStepAttrVals orderSchema) "approve" = true.
Proof.
  destruct (X8_nonempty_nextstep_is_a_legal_step forwardOrder backwardOrder
              orderSchema twoStepRuleSet twoStepRule) as (_ & _ & Hns & _).
  - vm_compute. reflexivity.
  - vm_compute. reflexivity.
  - left.
  - apply (Hns "approve"); [vm_compute; reflexivity | discriminate].
Defined.

Lemma X9_rule_set_fail_fast_order_witness :
  verifyRuleSet forwardOrder [] twoStepRuleSet true
    = (false, Some "no schema found for class order")
  ∧ (verifyRuleSet forwardOrder [orderSchema; shadowedSchema] emptyRuleSet true
     = (true, None)).
Proof.
  split.
  - destruct (X9_rule_set_fail_fast_order forwardOrder [] twoStepRuleSet true)
      as (Hnone & _).
    apply Hnone. intros s Hs. inversion Hs.
  - destruct (X9_rule_set_fail_fast_order forwardOrder [orderSchema; shadowedSchema]
                emptyRuleSet true) as (_ & _ & Hempty).
    apply Hempty; [reflexivity|]. exists orderSchema. split; [left | reflexivity].
Defined.

Lemma X19_names_are_CruxIDs_witness :
  "order" ≠ ""
  ∧ MatchString "approve" = true ∧ "approve" ≠ "" ∧ "approve" ≠ start.
Proof.
  destruct (X19_names_are_CruxIDs forwardOrder orderSchema true) as [Hclass Hnames].
  - vm_compute. reflexivity.
  - split; [exact Hclass|]. apply Hnames. right. left. left.
Defined.
